(** * Quatt Modbus sniffer: frame extraction, classification, correlation
      and register decoding

    A shallow embedding of [quatt_modbus_sniffer.py].  Byte strings are
    [list byte]; lengths and offsets are [nat]; the CRC register and the
    counters are [N]; register values are [Z]; Python's [float] is the
    kernel's binary64 [float]; a [dict] is an insertion-ordered association
    list.  The socket, the MQTT client and the logger are outside the model:
    what the sniffer hands to them is recorded as a list of events. *)

From Stdlib Require Import String Ascii DecimalString.
From Stdlib Require Import List Bool Arith NArith ZArith Lia.
From Stdlib Require Import Init.Byte Floats.
Import ListNotations.

Set Warnings "-inexact-float".

(** ** Module constants *)

Definition MAX_BUFFER_SIZE : nat := 512.
Definition BUFFER_CLEANUP_SIZE : nat := 256.
Definition MIN_FRAME_SIZE : nat := 4.
Definition MAX_FRAME_SIZE : nat := 256.
Definition TEMPERATURE_MIN : Z := -30.
Definition TEMPERATURE_MAX : Z := 150.
Definition MODBUS_CRC_INIT : N := 0xFFFF.
Definition MODBUS_CRC_POLY : N := 0xA001.
Definition STATS_PUBLISH_INTERVAL : N := 50.

(** ** Byte strings *)

Definition bytes := list byte.

(** [a == b] on two [bytes] objects. *)
Fixpoint bytes_eqb (a b : bytes) : bool :=
  match a, b with
  | [], [] => true
  | x :: a', y :: b' => Byte.eqb x y && bytes_eqb a' b'
  | _, _ => false
  end.

(** The least significant eight bits of a number, as a byte. *)
Definition byte_of_N (n : N) : byte :=
  match Byte.of_N (n mod 256) with
  | Some b => b
  | None => x00
  end.

(** Python's slices with a negative bound, for the two shapes the sniffer
    uses: [frame[:-2]] and [frame[-2:]].  On a string shorter than two bytes
    the first is empty and the second is the whole string, which is what the
    truncated subtraction gives. *)
Definition slice_to_minus2 (frame : bytes) : bytes :=
  firstn (length frame - 2) frame.

Definition slice_from_minus2 (frame : bytes) : bytes :=
  skipn (length frame - 2) frame.

(** ** CRC16 engine *)

Module Crc.

(** One pass of the inner [for _ in range(8)] loop. *)
Definition bit_step (crc : N) : N :=
  if N.eqb (N.land crc 0x0001) 0
  then N.shiftr crc 1
  else N.lxor (N.shiftr crc 1) MODBUS_CRC_POLY.

(** One pass of the outer [for byte in data] loop. *)
Definition byte_step (crc : N) (b : byte) : N :=
  Nat.iter 8 bit_step (N.lxor crc (Byte.to_N b)).

(** The value of [crc] when the outer loop ends. *)
Definition register (data : bytes) : N :=
  fold_left byte_step data MODBUS_CRC_INIT.

(** [struct.pack('<H', n)]: two bytes, low byte first; [struct.error]
    (here [None]) when [n] does not fit sixteen bits. *)
Definition struct_pack_le_H (n : N) : option bytes :=
  if N.ltb n 65536
  then Some [byte_of_N n; byte_of_N (N.shiftr n 8)]
  else None.

End Crc.

(** [calculate_crc].  The register never leaves sixteen bits
    ([Crc.register_bound] below), so [struct.pack] cannot raise and the two
    bytes are written out directly; [calculate_crc_pack] ties this to
    [Crc.struct_pack_le_H]. *)
Definition calculate_crc (data : bytes) : bytes :=
  let crc := Crc.register data in
  [byte_of_N crc; byte_of_N (N.shiftr crc 8)].

(** [verify_crc]. *)
Definition verify_crc (frame : bytes) : bool :=
  if length frame <? MIN_FRAME_SIZE then false
  else
    let data := slice_to_minus2 frame in
    let received_crc := slice_from_minus2 frame in
    let calculated_crc := calculate_crc data in
    bytes_eqb received_crc calculated_crc.

(** ** Frame extractor *)

(** The inner [for frame_len in range(MIN_FRAME_SIZE, min(len(remaining) + 1,
    MAX_FRAME_SIZE))] loop with its [break]: the first [frame_len] of the
    range whose prefix of [remaining] passes [verify_crc]. *)
Definition frame_len_range (remaining : bytes) : list nat :=
  seq MIN_FRAME_SIZE
      (Nat.min (length remaining + 1) MAX_FRAME_SIZE - MIN_FRAME_SIZE).

Definition scan_lengths (remaining : bytes) : option nat :=
  find (fun frame_len => verify_crc (firstn frame_len remaining))
       (frame_len_range remaining).

(** The outer [for start_pos in range(len(buffer) - 3)] loop with its
    [break]: the first start offset at which the inner loop succeeds, with
    the length found there. *)
Fixpoint scan_starts (buffer : bytes) (starts : list nat) : option (nat * nat) :=
  match starts with
  | [] => None
  | start_pos :: later =>
      match scan_lengths (skipn start_pos buffer) with
      | Some frame_len => Some (start_pos, frame_len)
      | None => scan_starts buffer later
      end
  end.

Definition find_frame (buffer : bytes) : option (nat * nat) :=
  scan_starts buffer (seq 0 (length buffer - 3)).

(** The [while] loop of [extract_frames].  Each pass costs one unit of fuel;
    [None] means the fuel ran out before the loop ended.  The result is the
    frames handed to [process_frame], in call order, and the buffer that is
    returned.  [process_frame] does not touch the buffer, so the calls are
    recorded here and run by [handle_data] below. *)
Fixpoint extract_frames_loop (fuel : nat) (buffer : bytes)
  : option (list bytes * bytes) :=
  match fuel with
  | O => None
  | S fuel' =>
      if length buffer <? MIN_FRAME_SIZE then Some ([], buffer)
      else
        match find_frame buffer with
        | Some (start_pos, frame_len) =>
            let potential_frame := firstn frame_len (skipn start_pos buffer) in
            match extract_frames_loop fuel' (skipn (start_pos + frame_len) buffer) with
            | Some (frames, rest) => Some (potential_frame :: frames, rest)
            | None => None
            end
        | None =>
            if MAX_BUFFER_SIZE <? length buffer
            then extract_frames_loop fuel' (skipn BUFFER_CLEANUP_SIZE buffer)
            else Some ([], buffer)
        end
  end.

(** Every pass but the last shortens the buffer, so one unit of fuel per byte
    and one for the last pass is enough ([extract_frames_loop_total]). *)
Definition extract_frames_fuel (buffer : bytes) : nat := S (length buffer).

Definition extract_frames (buffer : bytes) : list bytes * bytes :=
  match extract_frames_loop (extract_frames_fuel buffer) buffer with
  | Some r => r
  | None => ([], buffer)
  end.

(** ** Vocabulary of the extractor's properties *)

(** No slice of [buffer] that starts at an offset in [lo, hi) and has between
    [MIN_FRAME_SIZE] and [MAX_FRAME_SIZE] bytes passes [verify_crc]: no frame
    starts in that stretch of the buffer, whether it ends inside it or
    beyond it. *)
Definition no_frame_starts (buffer : bytes) (lo hi : nat) : bool :=
  forallb
    (fun start_pos =>
       forallb
         (fun frame_len =>
            negb ((start_pos + frame_len <=? length buffer)
                  && verify_crc (firstn frame_len (skipn start_pos buffer))))
         (seq MIN_FRAME_SIZE (MAX_FRAME_SIZE + 1 - MIN_FRAME_SIZE)))
    (seq lo (hi - lo)).

(** No proper prefix of [frame] passes [verify_crc]: at its own start offset
    [frame] is the shortest candidate that can be accepted. *)
Definition shortest_at_start (frame : bytes) : bool :=
  forallb (fun frame_len => negb (verify_crc (firstn frame_len frame)))
          (seq MIN_FRAME_SIZE (length frame - MIN_FRAME_SIZE)).

(** A frame the extractor hands on. *)
Definition emitted_ok (frame : bytes) : Prop :=
  MIN_FRAME_SIZE <= length frame < MAX_FRAME_SIZE /\ verify_crc frame = true.

(** Where the loop can stop: on a buffer too short to hold a frame, or on a
    buffer of at most [MAX_BUFFER_SIZE] bytes in which no frame was found. *)
Definition exit_state (rest : bytes) : Prop :=
  length rest < MIN_FRAME_SIZE \/
  (find_frame rest = None /\ length rest <= MAX_BUFFER_SIZE).

(** ** Sample traffic *)

Module Samples.

(** A read-holding-registers request for two registers from 2100, and a
    response carrying the values 0x0021 and 0xFFFF. *)
Definition request : bytes :=
  [x01; x03; x08; x34; x00; x02] ++ calculate_crc [x01; x03; x08; x34; x00; x02].

Definition response : bytes :=
  [x01; x03; x04; x00; x21; xff; xff]
    ++ calculate_crc [x01; x03; x04; x00; x21; xff; xff].

(** Six bytes that pass [verify_crc] and whose first four bytes pass it
    too: the checksum of a string that ends in its own checksum is zero. *)
Definition nested : bytes :=
  ([x01; x03] ++ calculate_crc [x01; x03]) ++ [x00; x00].

(** A frame of [MAX_FRAME_SIZE] bytes: 254 bytes of data and their checksum. *)
Definition frame_256 : bytes :=
  repeat x01 254 ++ calculate_crc (repeat x01 254).

Definition garbage1 : bytes := [xaa; x01].
Definition garbage2 : bytes := [x55; x00; x03].

End Samples.

(** ** Frame classifier *)

(** [is_modbus_request]: [function_code] is the second byte of the frame. *)
Definition is_modbus_request (function_code : byte) (frame_data : bytes) : bool :=
  let fc := Byte.to_N function_code in
  if negb (N.eqb (N.land fc 0x80) 0) then false
  else if existsb (N.eqb fc) [0x01; 0x02; 0x03; 0x04]%N
       then length frame_data <=? 8
  else if N.eqb fc 0x06 then length frame_data =? 8
  else if N.eqb fc 0x10 then 9 <? length frame_data
  else true.

(** ** Python values *)

(** The numbers and truth values a reading carries: [int], [float], [bool]. *)
Inductive PyVal : Type :=
| PyInt (z : Z)
| PyFloat (f : float)
| PyBool (b : bool).

(** [float(z)].  Exact below [2^53] in absolute value, which covers every
    sixteen-bit register value with its offset and the constants used here. *)
Definition float_of_Z (z : Z) : float :=
  match z with
  | Z0 => 0%float
  | Zpos _ => PrimFloat.of_uint63 (Uint63.of_Z z)
  | Zneg p => PrimFloat.opp (PrimFloat.of_uint63 (Uint63.of_Z (Zpos p)))
  end.

(** A number read as a [float], for a mixed operation or comparison. *)
Definition py_float (v : PyVal) : float :=
  match v with
  | PyInt z => float_of_Z z
  | PyFloat f => f
  | PyBool b => if b then 1%float else 0%float
  end.

Definition py_int (v : PyVal) : option Z :=
  match v with
  | PyInt z => Some z
  | PyBool b => Some (if b then 1 else 0)%Z
  | PyFloat _ => None
  end.

(** [a * b]: an [int] when both are, a [float] otherwise. *)
Definition py_mul (a b : PyVal) : PyVal :=
  match py_int a, py_int b with
  | Some x, Some y => PyInt (x * y)
  | _, _ => PyFloat (PrimFloat.mul (py_float a) (py_float b))
  end.

(** [a < b]. *)
Definition py_lt (a b : PyVal) : bool :=
  match py_int a, py_int b with
  | Some x, Some y => Z.ltb x y
  | _, _ => PrimFloat.ltb (py_float a) (py_float b)
  end.

(** [a <= b]. *)
Definition py_le (a b : PyVal) : bool :=
  match py_int a, py_int b with
  | Some x, Some y => Z.leb x y
  | _, _ => PrimFloat.leb (py_float a) (py_float b)
  end.

(** [min(a, b)] and [max(a, b)]: the first argument is kept unless the second
    is strictly smaller (greater). *)
Definition py_min (a b : PyVal) : PyVal := if py_lt b a then b else a.
Definition py_max (a b : PyVal) : PyVal := if py_lt a b then b else a.

(** [str(z)] for an [int]. *)
Definition str_of_Z (z : Z) : string := NilZero.string_of_int (Z.to_int z).

(** ** Dictionaries

    A Python [dict] keeps its keys in insertion order, and assigning to a key
    that is present keeps the key's place. *)

Section Dict.
Context {K V : Type}.
Variable keq : K -> K -> bool.

Definition dict := list (K * V).

(** [d.get(k)], [None] when the key is absent. *)
Fixpoint dict_get (k : K) (d : dict) : option V :=
  match d with
  | [] => None
  | (k', v) :: d' => if keq k k' then Some v else dict_get k d'
  end.

(** [k in d]. *)
Definition dict_mem (k : K) (d : dict) : bool :=
  match dict_get k d with Some _ => true | None => false end.

(** [d[k] = v]. *)
Fixpoint dict_set (k : K) (v : V) (d : dict) : dict :=
  match d with
  | [] => [(k, v)]
  | (k', v') :: d' =>
      if keq k k' then (k, v) :: d' else (k', v') :: dict_set k v d'
  end.

(** [del d[k]]. *)
Definition dict_del (k : K) (d : dict) : dict :=
  filter (fun kv => negb (keq k (fst kv))) d.

Definition dict_keys (d : dict) : list K := map fst d.
End Dict.

Arguments dict : clear implicits.

(** ** Register decoder *)

(** An entry of [register_mappings]. *)
Record Mapping : Type := mkMapping {
  map_name : string;
  map_unit : string;
  map_scale : PyVal;
  map_offset : Z;
  map_device_class : option string
}.

(** An entry of [r2108_bits] or [r2119_bits]. *)
Record BitInfo : Type := mkBitInfo {
  bit_name : string;
  bit_bitmask : Z
}.

(** The ["register"] field of a reading: the address, or a string such as
    ["2108b5"] for a status bit. *)
Inductive RegisterRef : Type :=
| RegAddr (register_addr : Z)
| RegBit (descriptor : string).

(** An entry of [parsed_data]. *)
Record Reading : Type := mkReading {
  rd_value : PyVal;
  rd_unit : string;
  rd_device_class : option string;
  rd_register : RegisterRef;
  rd_raw_value : Z
}.

Section Tables.
Local Open Scope string_scope.

Definition plain (n u : string) : Mapping := mkMapping n u (PyInt 1) 0 None.
Definition scaled (n u : string) (s : float) (c : string) : Mapping :=
  mkMapping n u (PyFloat s) 0 (Some c).
Definition temperature (n : string) : Mapping :=
  mkMapping n "¬∞C" (PyFloat 0.01) (-3000) (Some "temperature"%string).

Definition register_mappings : dict Z Mapping := [
  (1999, plain "Compressor Level set by CiC" "");
  (2010, plain "Pump Mode set by CiC" "");
  (2015, mkMapping "Pump Level set by CiC" "%" (PyFloat 0.01) 0 None);
  (3999, plain "Working Mode set by CiC" "");
  (2099, plain "Working Mode Actual" "");
  (2100, mkMapping "Compressor AC Voltage" "V" (PyInt 1) 0 (Some "voltage"%string));
  (2101, scaled "Compressor AC Current" "A" 0.1 "current");
  (2102, mkMapping "Compressor Frequency Demand" "Hz" (PyInt 1) 0 (Some "frequency"%string));
  (2103, mkMapping "Compressor Frequency Actual" "Hz" (PyInt 1) 0 (Some "frequency"%string));
  (2104, mkMapping "Fan Speed Maximum" "RPM" (PyInt 1) 0 (Some "speed"%string));
  (2105, mkMapping "Fan Speed Actual" "RPM" (PyInt 1) 0 (Some "speed"%string));
  (2107, plain "Electric Expansion Valve" "p");
  (2108, plain "Status Bits R2108" "");
  (2109, plain "EV1 Steps" "p");
  (2110, temperature "Outside Temperature");
  (2111, temperature "Evaporator Coil Temperature");
  (2112, temperature "Gas Discharge Temperature");
  (2113, temperature "Gas Return Temperature");
  (2116, scaled "Evaporator Pressure" "bar" 0.1 "pressure");
  (2117, scaled "Condenser Pressure" "bar" 0.1 "pressure");
  (2118, plain "Defrost Mode" "");
  (2119, plain "Status Bits R2119" "");
  (2120, plain "Status Bits R2120" "");
  (2121, plain "Status Bits R2121" "");
  (2122, plain "Firmware Version" "");
  (2123, plain "EEPROM Version" "");
  (2131, temperature "Condensing Temperature");
  (2132, temperature "Evaporating Temperature");
  (2133, temperature "Water In Temperature");
  (2134, temperature "Water Out Temperature");
  (2135, temperature "Condenser Coil Temperature");
  (2137, scaled "Pump Power" "W" 0.1 "power");
  (2138, scaled "Pump Flow" "L/h" 0.618 "volume_flow_rate")
]%Z.

Definition r2108_bits : dict Z BitInfo := [
  (0, mkBitInfo "Fan Low Speed Mode" 0x1);
  (2, mkBitInfo "Bottom Heater" 0x4);
  (3, mkBitInfo "Crankcase Heater" 0x8);
  (4, mkBitInfo "Fan Defrost Speed Mode" 0x10);
  (5, mkBitInfo "Fan High Speed Mode" 0x20);
  (6, mkBitInfo "4way Valve" 0x40);
  (11, mkBitInfo "Pump Relay" 0x800)
]%Z.

Definition r2119_bits : dict Z BitInfo := [
  (0, mkBitInfo "Alarm - Main Line Current" 0x1);
  (3, mkBitInfo "Info - Compressor Oil Return" 0x8);
  (4, mkBitInfo "Alarm - High Pressure Switch" 0x10);
  (6, mkBitInfo "Alarm - 1st Start Pre-heat" 0x40);
  (9, mkBitInfo "Alarm - AC High/Low Voltage" 0x200);
  (12, mkBitInfo "Alarm - Low Pressure Switch" 0x1000)
]%Z.

End Tables.

(** [bool(n)] for an [int]. *)
Definition truthy (n : Z) : bool := negb (Z.eqb n 0).

(** [mapping["device_class"] == "temperature"]. *)
Definition is_temperature (mapping : Mapping) : bool :=
  match map_device_class mapping with
  | Some c => String.eqb c "temperature"%string
  | None => false
  end.

(** The key written for one bit: [f"{prefix} {bit_info['name']}"]. *)
Definition bit_key (prefix : string) (bit_info : BitInfo) : string :=
  (prefix ++ " "%string ++ bit_name bit_info)%string.

(** The reading written for one bit. *)
Definition bit_reading (value register_addr bit_num : Z) (bit_info : BitInfo)
  : Reading :=
  mkReading (PyBool (truthy (Z.land value (bit_bitmask bit_info))))
            ""%string
            (Some "binary_sensor"%string)
            (RegBit (str_of_Z register_addr ++ "b"%string ++ str_of_Z bit_num)%string)
            value.

(** [_parse_status_bits]: the dictionary after the loop over
    [bit_mappings.items()]. *)
Definition _parse_status_bits (parsed_data : dict string Reading)
    (value register_addr : Z) (bit_mappings : dict Z BitInfo) (prefix : string)
  : dict string Reading :=
  fold_left
    (fun (acc : dict string Reading) (item : Z * BitInfo) =>
       let (bit_num, bit_info) := item in
       dict_set String.eqb (bit_key prefix bit_info)
                (bit_reading value register_addr bit_num bit_info) acc)
    bit_mappings parsed_data.

(** The value handed on after the signed reinterpretation of a temperature. *)
Definition signed_value (mapping : Mapping) (value : Z) : Z :=
  if is_temperature mapping && (32767 <? value)%Z
  then (value - 65536)%Z
  else value.

(** [scaled_value] as stored in the reading. *)
Definition scaled_value (mapping : Mapping) (value : Z) : PyVal :=
  let offset_value := (value + map_offset mapping)%Z in
  let scaled_value := py_mul (PyInt offset_value) (map_scale mapping) in
  if is_temperature mapping
  then py_max (PyInt TEMPERATURE_MIN) (py_min scaled_value (PyInt TEMPERATURE_MAX))
  else scaled_value.

(** One pass of the loop of [parse_read_response]. *)
Definition parse_step (start_register : Z) (parsed_data : dict string Reading)
    (item : nat * Z) : dict string Reading :=
  let (i, value) := item in
  let register_addr := (start_register + Z.of_nat i)%Z in
  match dict_get Z.eqb register_addr register_mappings with
  | None => parsed_data
  | Some mapping =>
      let value := signed_value mapping value in
      let parsed_data :=
        dict_set String.eqb (map_name mapping)
                 (mkReading (scaled_value mapping value)
                            (map_unit mapping)
                            (map_device_class mapping)
                            (RegAddr register_addr)
                            value)
                 parsed_data in
      if (register_addr =? 2108)%Z then
        _parse_status_bits parsed_data value register_addr r2108_bits "R2108"%string
      else if (register_addr =? 2118)%Z then
        dict_set String.eqb "Defrost Mode Active"%string
                 (mkReading (PyBool (truthy (Z.land value 0x1)))
                            ""%string
                            (Some "binary_sensor"%string)
                            (RegBit "2118b0"%string)
                            value)
                 parsed_data
      else if (register_addr =? 2119)%Z then
        _parse_status_bits parsed_data value register_addr r2119_bits "R2119"%string
      else parsed_data
  end.

(** [enumerate(values)]. *)
Definition enumerate {A : Type} (l : list A) : list (nat * A) :=
  combine (seq 0 (length l)) l.

(** [parse_read_response]. *)
Definition parse_read_response (start_register : Z) (values : list Z)
  : dict string Reading :=
  fold_left (parse_step start_register) (enumerate values) [].

(** ** Sniffer state *)

(** The six counters of [self.stats] and of each entry of [self.slave_stats]. *)
Record Stats : Type := mkStats {
  total_frames : N;
  valid_frames : N;
  requests : N;
  responses : N;
  errors : N;
  mqtt_publishes : N
}.

Definition zero_stats : Stats := mkStats 0 0 0 0 0 0.

(** The keys of a counter dictionary. *)
Inductive StatType : Type :=
| st_total_frames | st_valid_frames | st_requests
| st_responses | st_errors | st_mqtt_publishes.

(** [s[stat_type] += 1]. *)
Definition bump (stat_type : StatType) (s : Stats) : Stats :=
  match stat_type with
  | st_total_frames =>
      mkStats (total_frames s + 1) (valid_frames s) (requests s) (responses s)
              (errors s) (mqtt_publishes s)
  | st_valid_frames =>
      mkStats (total_frames s) (valid_frames s + 1) (requests s) (responses s)
              (errors s) (mqtt_publishes s)
  | st_requests =>
      mkStats (total_frames s) (valid_frames s) (requests s + 1) (responses s)
              (errors s) (mqtt_publishes s)
  | st_responses =>
      mkStats (total_frames s) (valid_frames s) (requests s) (responses s + 1)
              (errors s) (mqtt_publishes s)
  | st_errors =>
      mkStats (total_frames s) (valid_frames s) (requests s) (responses s)
              (errors s + 1) (mqtt_publishes s)
  | st_mqtt_publishes =>
      mkStats (total_frames s) (valid_frames s) (requests s) (responses s)
              (errors s) (mqtt_publishes s + 1)
  end.

(** An entry of [self.pending_requests]. *)
Record PendingRequest : Type := mkPending {
  pr_frame : bytes;
  pr_time : float;
  pr_function_code : byte
}.

(** The mutable part of a [QuattModbusSniffer], with [mqtt] telling whether
    [self.mqtt] is a client ([true]) or [None] ([false]). *)
Record Sniffer : Type := mkSniffer {
  mqtt : bool;
  stats : Stats;
  slave_stats : dict byte Stats;
  discovered_slaves : list byte;
  pending_requests : dict byte PendingRequest
}.

(** The state [__init__] leaves. *)
Definition new_sniffer (mqtt_available : bool) : Sniffer :=
  mkSniffer mqtt_available zero_stats [] [] [].

Definition with_stats (f : Stats -> Stats) (self : Sniffer) : Sniffer :=
  mkSniffer (mqtt self) (f (stats self)) (slave_stats self)
            (discovered_slaves self) (pending_requests self).

Definition with_slave_stats (f : dict byte Stats -> dict byte Stats)
    (self : Sniffer) : Sniffer :=
  mkSniffer (mqtt self) (stats self) (f (slave_stats self))
            (discovered_slaves self) (pending_requests self).

Definition with_discovered (f : list byte -> list byte) (self : Sniffer)
  : Sniffer :=
  mkSniffer (mqtt self) (stats self) (slave_stats self)
            (f (discovered_slaves self)) (pending_requests self).

Definition with_pending
    (f : dict byte PendingRequest -> dict byte PendingRequest)
    (self : Sniffer) : Sniffer :=
  mkSniffer (mqtt self) (stats self) (slave_stats self)
            (discovered_slaves self) (f (pending_requests self)).

(** [round(number, ndigits)] as it is handed to the MQTT client: the call is
    recorded with its arguments and not evaluated. *)
Inductive Rounded : Type :=
| py_round (number : PyVal) (ndigits : Z).

(** What the sniffer hands to the logger and to the MQTT client. *)
Inductive Event : Type :=
| LogRequest (device_id : byte) (frame_data : bytes)
| LogResponse (device_id : byte) (response_time_ms : PyVal)
              (request_frame : option bytes)
| SetupSlave (slave_id : byte)
| PublishSensor (sensor_name : string) (slave_id : byte) (value : PyVal)
| PublishBinarySensor (sensor_name : string) (slave_id : byte) (value : PyVal)
| PublishResponseTime (slave_id : byte) (response_time : Rounded)
| PublishStats (global : Stats) (per_slave : dict byte Stats)
               (discovered : list byte).

(** [update_slave_stats]. *)
Definition update_slave_stats (self : Sniffer) (slave_id : byte)
    (stat_type : StatType) : Sniffer :=
  with_slave_stats
    (fun table =>
       let table :=
         if dict_mem Byte.eqb slave_id table then table
         else dict_set Byte.eqb slave_id zero_stats table in
       match dict_get Byte.eqb slave_id table with
       | Some s => dict_set Byte.eqb slave_id (bump stat_type s) table
       | None => table
       end)
    self.

(** [publish_stats]: nothing without an MQTT client; otherwise the per-slave
    publications and the log lines, recorded as one snapshot of the counters
    they are computed from. *)
Definition publish_stats (self : Sniffer) : list Event :=
  if negb (mqtt self) then []
  else [PublishStats (stats self) (slave_stats self) (discovered_slaves self)].

(** [struct.unpack('>H', b)[0]] on the two bytes [hi], [lo]. *)
Definition unpack_be_H (hi lo : byte) : Z :=
  Z.of_N (Byte.to_N hi * 256 + Byte.to_N lo).

(** The register values of a read response: the loop
    [for i in range(0, byte_count, 2)] with its guard
    [3 + i + 1 < len(frame) - 2]. *)
Definition response_values (response_frame : bytes) : list Z :=
  let byte_count := N.to_nat (Byte.to_N (nth 2 response_frame x00)) in
  let indices := map (fun k => 2 * k) (seq 0 ((byte_count + 1) / 2)) in
  map (fun i => unpack_be_H (nth (3 + i) response_frame x00)
                            (nth (4 + i) response_frame x00))
      (filter (fun i => 3 + i + 1 <? length response_frame - 2) indices).

(** [setup_ha_sensors_for_slave]: the first call for a slave marks it as
    discovered and sends its discovery messages. *)
Definition setup_ha_sensors_for_slave (self : Sniffer) (slave_id : byte)
  : Sniffer * list Event :=
  if negb (mqtt self) || existsb (Byte.eqb slave_id) (discovered_slaves self)
  then (self, [])
  else (with_discovered (fun s => s ++ [slave_id]) self, [SetupSlave slave_id]).

(** The publication loop of [handle_sensor_data] over [parsed_data.items()]. *)
Definition publish_readings (self : Sniffer) (device_id : byte)
    (parsed_data : dict string Reading) : Sniffer * list Event :=
  fold_left
    (fun (acc : Sniffer * list Event) (item : string * Reading) =>
       let (self, events) := acc in
       let (sensor_name, sensor_data) := item in
       let event :=
         match rd_device_class sensor_data with
         | Some c =>
             if String.eqb c "binary_sensor"%string
             then PublishBinarySensor sensor_name device_id (rd_value sensor_data)
             else PublishSensor sensor_name device_id (rd_value sensor_data)
         | None => PublishSensor sensor_name device_id (rd_value sensor_data)
         end in
       let self := with_stats (bump st_mqtt_publishes) self in
       let self := update_slave_stats self device_id st_mqtt_publishes in
       (self, events ++ [event]))
    parsed_data (self, []).

(** [handle_sensor_data].  A stored request shorter than four bytes would make
    [struct.unpack] raise inside the [try]; the handler then logs and
    returns with nothing published.  The response time goes out as
    [round(response_time, 1)]. *)
Definition handle_sensor_data (self : Sniffer) (response_frame : bytes)
    (request_frame : option bytes) (device_id : byte) (response_time : PyVal)
  : Sniffer * list Event :=
  match request_frame with
  | None => (self, [])
  | Some request_frame =>
      let fc := Byte.to_N (nth 1 response_frame x00) in
      if negb (mqtt self)
         || (length request_frame =? 0)
         || negb (existsb (N.eqb fc) [0x03; 0x04]%N)
      then (self, [])
      else
        match firstn 2 (skipn 2 request_frame) with
        | [hi; lo] =>
            let start_register := unpack_be_H hi lo in
            let values := response_values response_frame in
            let (self, ev_setup) := setup_ha_sensors_for_slave self device_id in
            let parsed_data := parse_read_response start_register values in
            let (self, ev_data) := publish_readings self device_id parsed_data in
            (self, ev_setup ++ ev_data
                   ++ [PublishResponseTime device_id
                                           (py_round response_time 1)])
        | _ => (self, [])
        end
  end.

(** [process_frame], with [current_time] the value [time.time()] returns
    during the call.  Nothing in the body raises on a frame of four bytes or
    more, so the [except] branch (which counts an error) is never entered. *)
Definition process_frame (self : Sniffer) (frame_data : bytes)
    (current_time : float) : Sniffer * list Event :=
  let self := with_stats (bump st_total_frames) self in
  if length frame_data <? MIN_FRAME_SIZE then (self, [])
  else
    let device_id := nth 0 frame_data x00 in
    let function_code := nth 1 frame_data x00 in
    let is_request := is_modbus_request function_code frame_data in
    let (self, events) :=
      if is_request then
        let self := with_stats (bump st_requests) self in
        let self := update_slave_stats self device_id st_requests in
        let self :=
          with_pending
            (dict_set Byte.eqb device_id
                      (mkPending frame_data current_time function_code))
            self in
        (self, [LogRequest device_id frame_data])
      else
        let self := with_stats (bump st_responses) self in
        let self := update_slave_stats self device_id st_responses in
        let '(self, response_time_ms, request_frame) :=
          match dict_get Byte.eqb device_id (pending_requests self) with
          | Some pending =>
              let request_time := pr_time pending in
              let response_time_ms :=
                py_mul (PyFloat (PrimFloat.sub current_time request_time))
                       (PyInt 1000) in
              (with_pending (dict_del Byte.eqb device_id) self,
               response_time_ms, Some (pr_frame pending))
          | None => (self, PyInt 0, None)
          end in
        let (self, ev_sensor) :=
          handle_sensor_data self frame_data request_frame device_id
                             response_time_ms in
        (self, LogResponse device_id response_time_ms request_frame :: ev_sensor)
    in
    let self := with_stats (bump st_valid_frames) self in
    let self := update_slave_stats self device_id st_valid_frames in
    if N.eqb (total_frames (stats self) mod STATS_PUBLISH_INTERVAL) 0
    then (self, events ++ publish_stats self)
    else (self, events).

(** A run of [process_frame] over frames with their arrival times: the final
    state and, per frame, the events of its call. *)
Fixpoint process_frames (self : Sniffer) (trace : list (bytes * float))
  : Sniffer * list (list Event) :=
  match trace with
  | [] => (self, [])
  | (frame_data, current_time) :: later =>
      let (self, events) := process_frame self frame_data current_time in
      let (self, rest) := process_frames self later in
      (self, events :: rest)
  end.


(** The states the sniffer can be in: the initial one, and any state left by
    processing a frame that [extract_frames] accepted. *)
Inductive reachable : Sniffer -> Prop :=
| reach_new : forall mqtt_available, reachable (new_sniffer mqtt_available)
| reach_frame : forall self frame_data current_time,
    reachable self ->
    verify_crc frame_data = true ->
    reachable (fst (process_frame self frame_data current_time)).

(** The number of statistics snapshots among the events of a call. *)
Definition snapshots (events : list Event) : nat :=
  length (filter (fun e => match e with PublishStats _ _ _ => true | _ => false end)
                 events).

(** ** Vocabulary of the processing properties *)

(** What the sensor path of a response leaves alone: the MQTT flag, the
    pending table and the two frame counters. *)
Definition keeps_frame_state (before after : Sniffer) : Prop :=
  mqtt after = mqtt before
  /\ pending_requests after = pending_requests before
  /\ total_frames (stats after) = total_frames (stats before)
  /\ valid_frames (stats after) = valid_frames (stats before).

(** The latency and the matched request a response is reported with, read
    off the pending table as it is when the response arrives. *)
Definition correlate (pending : dict byte PendingRequest) (device_id : byte)
    (current_time : float) : PyVal * option bytes :=
  match dict_get Byte.eqb device_id pending with
  | Some request =>
      (PyFloat (PrimFloat.mul (PrimFloat.sub current_time (pr_time request))
                              1000%float),
       Some (pr_frame request))
  | None => (PyInt 0, None)
  end.

(** A frame that [process_frame] files as a request for [device_id]. *)
Definition is_request_for (device_id : byte) (frame_data : bytes) : bool :=
  (MIN_FRAME_SIZE <=? length frame_data)
  && Byte.eqb (nth 0 frame_data x00) device_id
  && is_modbus_request (nth 1 frame_data x00) frame_data.

(** How many entries of a dictionary carry the key [k]. *)
Definition dict_count {K V : Type} (keq : K -> K -> bool) (k : K)
    (d : dict K V) : nat :=
  length (filter (fun kv => keq k (fst kv)) d).

Module Runs.

(** The sniffer after the sample request arrived at time 1.5. *)
Definition awaiting : Sniffer :=
  fst (process_frame (new_sniffer true) Samples.request 1.5%float).

(** Forty-nine and fifty copies of the sample request. *)
Definition trace_49 : list (bytes * float) :=
  repeat (Samples.request, 0%float) 49.

Definition trace_50 : list (bytes * float) :=
  repeat (Samples.request, 0%float) 50.

Definition after_49 : Sniffer :=
  fst (process_frames (new_sniffer true) trace_49).

End Runs.

(** ** Vocabulary of the decoder's properties *)

(** A run of assignments [d[k] = v], in order. *)
Definition assign_all (assignments : list (string * Reading))
    (d : dict string Reading) : dict string Reading :=
  fold_left (fun acc kv => dict_set String.eqb (fst kv) (snd kv) acc)
            assignments d.

(** The assignments [_parse_status_bits] makes. *)
Definition bit_assignments (value register_addr : Z)
    (bit_mappings : dict Z BitInfo) (prefix : string)
  : list (string * Reading) :=
  map (fun item => (bit_key prefix (snd item),
                    bit_reading value register_addr (fst item) (snd item)))
      bit_mappings.

(** The assignments one pass of the loop of [parse_read_response] makes for
    the raw value [raw] at [register_addr]. *)
Definition register_assignments (register_addr raw : Z)
  : list (string * Reading) :=
  match dict_get Z.eqb register_addr register_mappings with
  | None => []
  | Some mapping =>
      let value := signed_value mapping raw in
      (map_name mapping,
       mkReading (scaled_value mapping value) (map_unit mapping)
                 (map_device_class mapping) (RegAddr register_addr) value)
      :: (if (register_addr =? 2108)%Z then
            bit_assignments value register_addr r2108_bits "R2108"%string
          else if (register_addr =? 2118)%Z then
            [("Defrost Mode Active"%string,
              mkReading (PyBool (truthy (Z.land value 0x1))) ""%string
                        (Some "binary_sensor"%string) (RegBit "2118b0"%string)
                        value)]
          else if (register_addr =? 2119)%Z then
            bit_assignments value register_addr r2119_bits "R2119"%string
          else [])
  end.

(** The keys written for a register address. *)
Definition keys_written (register_addr : Z) : list string :=
  map fst (register_assignments register_addr 0).

(** The first address of [register_mappings] whose pass writes [key]. *)
Definition key_owner (key : string) : option Z :=
  option_map fst
    (find (fun item => existsb (String.eqb key) (keys_written (fst item)))
          register_mappings).

(** Whether [p] holds of [count] consecutive integers from [z] on. *)
Fixpoint all_from (p : Z -> bool) (count : nat) (z : Z) : bool :=
  match count with
  | O => true
  | S count' => p z && all_from p count' (z + 1)
  end.

(** The reading of a temperature register, from its raw sixteen-bit value. *)
Definition temperature_value (raw : Z) : PyVal :=
  let value := if (32767 <? raw)%Z then (raw - 65536)%Z else raw in
  py_max (PyInt TEMPERATURE_MIN)
         (py_min (py_mul (PyInt (value + -3000)) (PyFloat 0.01))
                 (PyInt TEMPERATURE_MAX)).

(** ** Vocabulary of the further properties *)

(** [buffer[start:start + len]]. *)
Definition slice (buffer : bytes) (start_pos frame_len : nat) : bytes :=
  firstn frame_len (skipn start_pos buffer).

(** A place where the extractor looks for a frame: a start offset and a
    length it tries there. *)
Definition candidate (buffer : bytes) (start_pos frame_len : nat) : Prop :=
  MIN_FRAME_SIZE <= frame_len < MAX_FRAME_SIZE
  /\ start_pos + frame_len <= length buffer.

(** Stretches of skipped bytes and frames, alternating, laid end to end. *)
Fixpoint weave (noise frames : list bytes) : bytes :=
  match noise, frames with
  | skipped :: noise', frame :: frames' =>
      skipped ++ frame ++ weave noise' frames'
  | _, _ => []
  end.

(** [frame] with the byte at index [k] replaced by [new]. *)
Definition corrupt (frame : bytes) (k : nat) (new : byte) : bytes :=
  firstn k frame ++ new :: skipn (S k) frame.

(** The register before a [Crc.bit_step] that gave [crc]: bit 15 of the
    result tells whether the polynomial was folded in. *)
Definition bit_unstep (crc : N) : N :=
  if N.testbit crc 15
  then (2 * N.lxor crc MODBUS_CRC_POLY + 1)%N
  else (2 * crc)%N.

(** What [update_slave_stats] does to the per-slave table. *)
Definition bump_slave (slave_id : byte) (stat_type : StatType)
    (table : dict byte Stats) : dict byte Stats :=
  let table :=
    if dict_mem Byte.eqb slave_id table then table
    else dict_set Byte.eqb slave_id zero_stats table in
  match dict_get Byte.eqb slave_id table with
  | Some s => dict_set Byte.eqb slave_id (bump stat_type s) table
  | None => table
  end.

(** The counters of a slave, all zero for a slave not seen yet. *)
Definition slave_view (table : dict byte Stats) (slave_id : byte) : Stats :=
  match dict_get Byte.eqb slave_id table with
  | Some s => s
  | None => zero_stats
  end.

(** One counter summed over the per-slave table. *)
Definition slave_sum (counter : Stats -> N) (table : dict byte Stats) : N :=
  fold_right (fun kv acc => (counter (snd kv) + acc)%N) 0%N table.

(** The counter a statistics key names. *)
Definition counter_of (stat_type : StatType) : Stats -> N :=
  match stat_type with
  | st_total_frames => total_frames
  | st_valid_frames => valid_frames
  | st_requests => requests
  | st_responses => responses
  | st_errors => errors
  | st_mqtt_publishes => mqtt_publishes
  end.

Definition stat_type_eqb (a b : StatType) : bool :=
  match a, b with
  | st_total_frames, st_total_frames
  | st_valid_frames, st_valid_frames
  | st_requests, st_requests
  | st_responses, st_responses
  | st_errors, st_errors
  | st_mqtt_publishes, st_mqtt_publishes => true
  | _, _ => false
  end.

(** The keys [process_frame] bumps for a frame of four bytes or more, after
    [total_frames]: the frame's kind, one [mqtt_publishes] per reading
    published, and [valid_frames]. *)
Definition bumps_of (is_request : bool) (published : nat) : list StatType :=
  (if is_request then st_requests else st_responses)
    :: repeat st_mqtt_publishes published ++ [st_valid_frames].

(** An event that goes to the MQTT client. *)
Definition is_publication (e : Event) : bool :=
  match e with
  | LogRequest _ _ | LogResponse _ _ _ => false
  | _ => true
  end.

(** An event that carries a decoded reading or the response time. *)
Definition is_sensor_publication (e : Event) : bool :=
  match e with
  | PublishSensor _ _ _ | PublishBinarySensor _ _ _
  | PublishResponseTime _ _ => true
  | _ => false
  end.

(** The condition under which [handle_sensor_data] decodes a response. *)
Definition decodes (self : Sniffer) (response_frame : bytes)
    (request_frame : option bytes) : bool :=
  match request_frame with
  | None => false
  | Some request =>
      mqtt self
      && negb (length request =? 0)
      && existsb (N.eqb (Byte.to_N (nth 1 response_frame x00))) [0x03; 0x04]%N
      && (2 <=? length (skipn 2 request))
  end.


(** The counters of a sniffer agree: the two frame counters are equal and
    split into requests and responses, every counter kept per slave sums to
    the global one, and a slave's counters split the same way, with
    [total_frames] and [errors] left at zero. *)
Definition counters_agree (self : Sniffer) : Prop :=
  total_frames (stats self) = valid_frames (stats self)
  /\ (requests (stats self) + responses (stats self))%N
     = valid_frames (stats self)
  /\ (forall c, c <> st_total_frames -> c <> st_errors ->
        slave_sum (counter_of c) (slave_stats self)
        = counter_of c (stats self))
  /\ (forall slave_id,
        let s := slave_view (slave_stats self) slave_id in
        total_frames s = 0%N /\ errors s = 0%N
        /\ (requests s + responses s)%N = valid_frames s)
  /\ NoDup (dict_keys (slave_stats self)).

(** * Properties *)

(** Closed goals over concrete data are settled by evaluation: equations by
    [vm_compute], bounds on [nat] through their boolean tests. *)
Ltac by_vm :=
  lazymatch goal with
  | |- _ = _ => vm_compute; reflexivity
  | |- _ < _ => apply Nat.ltb_lt; vm_compute; reflexivity
  | |- _ <= _ => apply Nat.leb_le; vm_compute; reflexivity
  end.

(** Splits a conjunction into its conjuncts and nothing else. *)
Ltac split_all :=
  repeat lazymatch goal with |- _ /\ _ => split end.

(** ** Byte strings and the CRC16 engine *)

Lemma bytes_eqb_eq : forall a b : bytes, bytes_eqb a b = true <-> a = b.
Proof.
  induction a as [|x a IH]; destruct b as [|y b]; simpl; split;
    try congruence; try discriminate.
  - intros H. apply andb_prop in H as [Hx Hab].
    apply Byte.byte_dec_bl in Hx. apply IH in Hab. now subst.
  - intros H. injection H as -> ->.
    rewrite (Byte.byte_dec_lb eq_refl). now apply IH.
Qed.

Lemma bytes_eqb_refl : forall a : bytes, bytes_eqb a a = true.
Proof. intros a. now apply bytes_eqb_eq. Qed.

Lemma to_N_byte_of_N : forall n : N, Byte.to_N (byte_of_N n) = (n mod 256)%N.
Proof.
  intros n. unfold byte_of_N.
  destruct (Byte.of_N (n mod 256)) as [b|] eqn:E.
  - now apply Byte.to_of_N in E.
  - apply Byte.of_N_None_iff in E.
    pose proof (N.mod_upper_bound n 256). lia.
Qed.

Lemma slice_to_minus2_app : forall d c : bytes,
  length c = 2 -> slice_to_minus2 (d ++ c) = d.
Proof.
  intros d c Hc. unfold slice_to_minus2.
  rewrite length_app, Hc, Nat.add_sub.
  rewrite firstn_app, Nat.sub_diag, firstn_all. simpl. apply app_nil_r.
Qed.

Lemma slice_from_minus2_app : forall d c : bytes,
  length c = 2 -> slice_from_minus2 (d ++ c) = c.
Proof.
  intros d c Hc. unfold slice_from_minus2.
  rewrite length_app, Hc, Nat.add_sub.
  rewrite skipn_app, Nat.sub_diag, skipn_all. reflexivity.
Qed.

Lemma slices_minus2 : forall frame : bytes,
  slice_to_minus2 frame ++ slice_from_minus2 frame = frame.
Proof. intros frame. apply firstn_skipn. Qed.

Lemma calculate_crc_length : forall data, length (calculate_crc data) = 2.
Proof. reflexivity. Qed.

Module CrcFacts.

Lemma lxor_below : forall a b n : N,
  (a < 2 ^ n -> b < 2 ^ n -> N.lxor a b < 2 ^ n)%N.
Proof.
  intros a b n Ha Hb.
  destruct (N.eq_dec (N.lxor a b) 0) as [E|E].
  - rewrite E. apply N.neq_0_lt_0. now apply N.pow_nonzero.
  - apply N.log2_lt_pow2; [lia|].
    eapply N.le_lt_trans; [apply N.log2_lxor|].
    destruct (N.eq_dec a 0) as [->|Hane], (N.eq_dec b 0) as [->|Hbne].
    + now elim E.
    + rewrite N.max_r by apply N.le_0_l. apply N.log2_lt_pow2; lia.
    + rewrite N.max_l by apply N.le_0_l. apply N.log2_lt_pow2; lia.
    + apply N.max_lub_lt; apply N.log2_lt_pow2; lia.
Qed.

Lemma bit_step_below : forall crc, (crc < 65536 -> Crc.bit_step crc < 65536)%N.
Proof.
  intros crc H. unfold Crc.bit_step.
  assert (Hs : (N.shiftr crc 1 < 65536)%N).
  { rewrite N.shiftr_div_pow2. change (2 ^ 1)%N with 2%N.
    eapply N.le_lt_trans; [|exact H].
    apply N.Div0.div_le_upper_bound. lia. }
  destruct (N.land crc 1 =? 0)%N; [exact Hs|].
  apply (lxor_below _ _ 16); [exact Hs|]. unfold MODBUS_CRC_POLY. lia.
Qed.

Lemma byte_step_below : forall crc b,
  (crc < 65536 -> Crc.byte_step crc b < 65536)%N.
Proof.
  intros crc b H. unfold Crc.byte_step.
  assert (Hx : (N.lxor crc (Byte.to_N b) < 65536)%N).
  { apply (lxor_below _ _ 16); [exact H|].
    pose proof (Byte.to_N_bounded b). change (2 ^ 16)%N with 65536%N. lia. }
  generalize dependent (N.lxor crc (Byte.to_N b)). intros x Hx.
  do 8 (rewrite Nat.iter_succ_r; apply bit_step_below in Hx).
  exact Hx.
Qed.

(** The register stays within sixteen bits. *)
Lemma register_bound : forall data, (Crc.register data < 65536)%N.
Proof.
  intros data. unfold Crc.register.
  assert (H : (MODBUS_CRC_INIT < 65536)%N) by (unfold MODBUS_CRC_INIT; lia).
  revert H. generalize MODBUS_CRC_INIT.
  induction data as [|b data IH]; intros crc H; simpl; [exact H|].
  apply IH. now apply byte_step_below.
Qed.

(** [struct.pack] never raises in [calculate_crc]. *)
Lemma calculate_crc_pack : forall data,
  Crc.struct_pack_le_H (Crc.register data) = Some (calculate_crc data).
Proof.
  intros data. unfold Crc.struct_pack_le_H.
  pose proof (register_bound data) as H.
  apply N.ltb_lt in H. now rewrite H.
Qed.

(** The two bytes are the register, low byte first. *)
Lemma calculate_crc_little_endian : forall data,
  exists lo hi,
    calculate_crc data = [lo; hi] /\
    (Byte.to_N lo + 256 * Byte.to_N hi = Crc.register data)%N.
Proof.
  intros data. eexists _, _. split; [reflexivity|].
  rewrite !to_N_byte_of_N.
  pose proof (register_bound data) as H.
  rewrite N.shiftr_div_pow2. change (2 ^ 8)%N with 256%N.
  rewrite (N.mod_small (_ / 256)).
  - rewrite N.add_comm. symmetry. apply N.Div0.div_mod.
  - apply N.Div0.div_lt_upper_bound. lia.
Qed.

(** The check value of CRC-16/MODBUS: the ASCII digits 1 to 9 give 0x4B37. *)
Example register_check_value :
  Crc.register [x31; x32; x33; x34; x35; x36; x37; x38; x39] = 0x4B37%N.
Proof. reflexivity. Qed.

End CrcFacts.

Lemma verify_crc_length : forall frame,
  verify_crc frame = true -> MIN_FRAME_SIZE <= length frame.
Proof.
  intros frame H. unfold verify_crc in H.
  destruct (length frame <? MIN_FRAME_SIZE) eqn:E; [discriminate|].
  now apply Nat.ltb_ge in E.
Qed.

Lemma verify_crc_iff : forall frame,
  verify_crc frame = true <->
  MIN_FRAME_SIZE <= length frame /\
  calculate_crc (slice_to_minus2 frame) = slice_from_minus2 frame.
Proof.
  intros frame. unfold verify_crc.
  destruct (length frame <? MIN_FRAME_SIZE) eqn:E.
  - apply Nat.ltb_lt in E. split; [discriminate|]. intros [H _]. lia.
  - apply Nat.ltb_ge in E. rewrite bytes_eqb_eq. intuition congruence.
Qed.

(** C4 (as amended).  Appending the checksum of [d] to [d] gives a frame that
    [verify_crc] accepts exactly when [d] has at least two bytes, that is when
    the frame reaches [MIN_FRAME_SIZE]; and [verify_crc frame] holds exactly
    when [frame] has at least [MIN_FRAME_SIZE] bytes and the checksum of
    [frame[:-2]] equals [frame[-2:]].  The checksum is the CRC16 register
    started at 0xFFFF, stepped with the reflected polynomial 0xA001, and
    written as two bytes, low byte first. *)
Theorem verify_crc_of_appended_checksum : forall d : bytes,
  verify_crc (d ++ calculate_crc d) = (2 <=? length d)
  /\ (forall frame : bytes,
        verify_crc frame = true <->
        MIN_FRAME_SIZE <= length frame /\
        calculate_crc (slice_to_minus2 frame) = slice_from_minus2 frame)
  /\ (exists lo hi,
        calculate_crc d = [lo; hi] /\
        (Byte.to_N lo + 256 * Byte.to_N hi
         = fold_left Crc.byte_step d 0xFFFF)%N)
  /\ (forall crc,
        Crc.bit_step crc
        = if N.testbit crc 0 then N.lxor (N.shiftr crc 1) 0xA001
          else N.shiftr crc 1).
Proof.
  intros d. split; [|split; [|split]].
  - unfold verify_crc.
    rewrite slice_to_minus2_app, slice_from_minus2_app by reflexivity.
    rewrite bytes_eqb_refl, length_app, calculate_crc_length.
    unfold MIN_FRAME_SIZE.
    destruct (length d + 2 <? 4) eqn:E1, (2 <=? length d) eqn:E2;
      try reflexivity.
    + apply Nat.ltb_lt in E1. apply Nat.leb_le in E2. lia.
    + apply Nat.ltb_ge in E1. apply Nat.leb_gt in E2. lia.
  - apply verify_crc_iff.
  - apply CrcFacts.calculate_crc_little_endian.
  - intros crc. unfold Crc.bit_step, MODBUS_CRC_POLY.
    rewrite N.bit0_odd. change 1%N with (N.ones 1).
    rewrite N.land_ones. change (2 ^ 1)%N with 2%N.
    rewrite <- N.bit0_mod, N.bit0_odd.
    destruct (N.odd crc) eqn:E.
    + unfold N.b2n. reflexivity.
    + reflexivity.
Qed.

(** C4 (as stated) fails on short data: with [d] empty the frame is the two
    bytes FF FF, whose checksum part matches, and [verify_crc] rejects it
    because it is shorter than [MIN_FRAME_SIZE]. *)
Lemma verify_crc_rejects_short_frame :
  verify_crc ([] ++ calculate_crc []) = false
  /\ calculate_crc (slice_to_minus2 [xff; xff]) = slice_from_minus2 [xff; xff]
  /\ verify_crc [xff; xff] = false
  /\ verify_crc ([x01] ++ calculate_crc [x01]) = false.
Proof. split_all; by_vm. Qed.

(** ** Frame extractor *)

Section FindFirst.
Context {A : Type}.
Variable p : nat -> bool.

(** [find] over a range returns the least index that passes. *)
Lemma find_seq_first : forall n a x,
  a <= x < a + n ->
  p x = true ->
  (forall y, a <= y < x -> p y = false) ->
  find p (seq a n) = Some x.
Proof.
  induction n as [|n IH]; intros a x Hx Hp Hlow; [lia|].
  simpl. destruct (Nat.eq_dec a x) as [->|Hne].
  - now rewrite Hp.
  - rewrite (Hlow a) by lia. apply IH; [lia|exact Hp|].
    intros y Hy. apply Hlow. lia.
Qed.

Lemma find_seq_some : forall n a x,
  find p (seq a n) = Some x -> a <= x < a + n /\ p x = true.
Proof.
  intros n a x H. apply find_some in H as [Hin Hp].
  apply in_seq in Hin. now split.
Qed.

Lemma find_seq_none : forall n a,
  (forall y, a <= y < a + n -> p y = false) -> find p (seq a n) = None.
Proof.
  induction n as [|n IH]; intros a H; [reflexivity|].
  simpl. rewrite (H a) by lia. apply IH. intros y Hy. apply H. lia.
Qed.
End FindFirst.

Lemma scan_lengths_some : forall remaining frame_len,
  scan_lengths remaining = Some frame_len ->
  MIN_FRAME_SIZE <= frame_len < MAX_FRAME_SIZE /\
  frame_len <= length remaining /\
  verify_crc (firstn frame_len remaining) = true.
Proof.
  intros remaining frame_len H. unfold scan_lengths, frame_len_range in H.
  apply find_seq_some in H as [Hr Hv]. repeat split; try exact Hv; lia.
Qed.

Lemma scan_starts_some : forall buffer starts start_pos frame_len,
  scan_starts buffer starts = Some (start_pos, frame_len) ->
  In start_pos starts /\
  scan_lengths (skipn start_pos buffer) = Some frame_len.
Proof.
  intros buffer starts. induction starts as [|s starts IH];
    intros start_pos frame_len H; simpl in H; [discriminate|].
  destruct (scan_lengths (skipn s buffer)) as [l|] eqn:E.
  - injection H as <- <-. split; [now left|exact E].
  - apply IH in H as [Hin Hl]. split; [now right|exact Hl].
Qed.

Lemma scan_starts_first : forall buffer n a start_pos frame_len,
  a <= start_pos < a + n ->
  (forall s, a <= s < start_pos -> scan_lengths (skipn s buffer) = None) ->
  scan_lengths (skipn start_pos buffer) = Some frame_len ->
  scan_starts buffer (seq a n) = Some (start_pos, frame_len).
Proof.
  intros buffer n. induction n as [|n IH];
    intros a start_pos frame_len Hr Hnone Hhit; [lia|].
  simpl. destruct (Nat.eq_dec a start_pos) as [->|Hne].
  - now rewrite Hhit.
  - rewrite (Hnone a) by lia. apply IH; [lia| |exact Hhit].
    intros s Hs. apply Hnone. lia.
Qed.

(** What [find_frame] returns is a start offset and a length inside the
    buffer, the length between [MIN_FRAME_SIZE] and [MAX_FRAME_SIZE - 1], of
    a slice that passes [verify_crc]. *)
Lemma find_frame_some : forall buffer start_pos frame_len,
  find_frame buffer = Some (start_pos, frame_len) ->
  MIN_FRAME_SIZE <= frame_len < MAX_FRAME_SIZE /\
  start_pos + frame_len <= length buffer /\
  verify_crc (firstn frame_len (skipn start_pos buffer)) = true.
Proof.
  intros buffer start_pos frame_len H. unfold find_frame in H.
  apply scan_starts_some in H as [Hin Hl].
  apply in_seq in Hin.
  apply scan_lengths_some in Hl as (Hlen & Hfit & Hv).
  rewrite length_skipn in Hfit. repeat split; try exact Hv; lia.
Qed.

Lemma emitted_ok_slice : forall buffer start_pos frame_len,
  find_frame buffer = Some (start_pos, frame_len) ->
  emitted_ok (firstn frame_len (skipn start_pos buffer)).
Proof.
  intros buffer start_pos frame_len H.
  apply find_frame_some in H as (Hlen & Hfit & Hv).
  split; [|exact Hv].
  rewrite length_firstn, length_skipn. lia.
Qed.

(** One pass of the loop. *)
Lemma extract_frames_loop_S : forall fuel buffer,
  extract_frames_loop (S fuel) buffer =
  if length buffer <? MIN_FRAME_SIZE then Some ([], buffer)
  else
    match find_frame buffer with
    | Some (start_pos, frame_len) =>
        match extract_frames_loop fuel (skipn (start_pos + frame_len) buffer) with
        | Some (frames, rest) =>
            Some (firstn frame_len (skipn start_pos buffer) :: frames, rest)
        | None => None
        end
    | None =>
        if MAX_BUFFER_SIZE <? length buffer
        then extract_frames_loop fuel (skipn BUFFER_CLEANUP_SIZE buffer)
        else Some ([], buffer)
    end.
Proof. reflexivity. Qed.

(** With more fuel than bytes the loop ends. *)
Lemma extract_frames_loop_total : forall fuel buffer,
  length buffer < fuel ->
  exists frames rest,
    extract_frames_loop fuel buffer = Some (frames, rest) /\
    Forall emitted_ok frames /\
    exit_state rest /\
    length rest <= length buffer.
Proof.
  induction fuel as [|fuel IH]; intros buffer Hfuel; [lia|].
  rewrite extract_frames_loop_S.
  destruct (length buffer <? MIN_FRAME_SIZE) eqn:Eshort.
  - apply Nat.ltb_lt in Eshort.
    exists [], buffer. repeat split; [constructor|now left|lia].
  - apply Nat.ltb_ge in Eshort.
    destruct (find_frame buffer) as [[start_pos frame_len]|] eqn:Efind.
    + pose proof (emitted_ok_slice _ _ _ Efind) as Hok.
      apply find_frame_some in Efind as (Hlen & Hfit & _).
      unfold MIN_FRAME_SIZE in Hlen.
      destruct (IH (skipn (start_pos + frame_len) buffer))
        as (frames & rest & Hrun & Hall & Hexit & Hle).
      { rewrite length_skipn. lia. }
      rewrite Hrun. exists (firstn frame_len (skipn start_pos buffer) :: frames), rest.
      repeat split; [now constructor|exact Hexit|].
      rewrite length_skipn in Hle. lia.
    + destruct (MAX_BUFFER_SIZE <? length buffer) eqn:Ebig.
      * apply Nat.ltb_lt in Ebig. unfold MAX_BUFFER_SIZE in Ebig.
        destruct (IH (skipn BUFFER_CLEANUP_SIZE buffer))
          as (frames & rest & Hrun & Hall & Hexit & Hle).
        { rewrite length_skipn. unfold BUFFER_CLEANUP_SIZE. lia. }
        rewrite Hrun. exists frames, rest.
        repeat split; [exact Hall|exact Hexit|].
        rewrite length_skipn in Hle. lia.
      * apply Nat.ltb_ge in Ebig.
        exists [], buffer. repeat split; [constructor|now right|lia].
Qed.

(** More fuel does not change a result. *)
Lemma extract_frames_loop_more_fuel : forall fuel buffer r,
  extract_frames_loop fuel buffer = Some r ->
  forall fuel', fuel <= fuel' -> extract_frames_loop fuel' buffer = Some r.
Proof.
  induction fuel as [|fuel IH]; intros buffer r H fuel' Hle; [discriminate|].
  destruct fuel' as [|fuel']; [lia|].
  rewrite extract_frames_loop_S in *.
  destruct (length buffer <? MIN_FRAME_SIZE); [exact H|].
  destruct (find_frame buffer) as [[start_pos frame_len]|].
  - destruct (extract_frames_loop fuel (skipn (start_pos + frame_len) buffer))
      as [[frames rest]|] eqn:E; [|discriminate].
    rewrite (IH _ _ E fuel') by lia. exact H.
  - destruct (MAX_BUFFER_SIZE <? length buffer); [|exact H].
    apply IH; [exact H|lia].
Qed.

Lemma extract_frames_run : forall buffer,
  extract_frames_loop (extract_frames_fuel buffer) buffer
  = Some (extract_frames buffer).
Proof.
  intros buffer. unfold extract_frames.
  destruct (extract_frames_loop_total (extract_frames_fuel buffer) buffer)
    as (frames & rest & H & _).
  { unfold extract_frames_fuel. lia. }
  now rewrite H.
Qed.

(** Every frame handed to [process_frame] passes [verify_crc] and has between
    [MIN_FRAME_SIZE] and [MAX_FRAME_SIZE - 1] bytes. *)
Lemma extract_frames_emitted : forall buffer,
  Forall emitted_ok (fst (extract_frames buffer)).
Proof.
  intros buffer.
  destruct (extract_frames_loop_total (extract_frames_fuel buffer) buffer)
    as (frames & rest & H & Hall & _).
  { unfold extract_frames_fuel. lia. }
  rewrite extract_frames_run in H. injection H as ->. exact Hall.
Qed.

(** C10.  On every buffer the loop of [extract_frames] ends within the fuel
    given to it, and the buffer it returns has at most [MAX_BUFFER_SIZE]
    bytes: the loop stops either with fewer than [MIN_FRAME_SIZE] bytes left
    or after finding no frame in a buffer that does not exceed
    [MAX_BUFFER_SIZE]. *)
Theorem extract_frames_remainder_bounded : forall buffer : bytes,
  exists frames rest,
    extract_frames_loop (extract_frames_fuel buffer) buffer
    = Some (frames, rest) /\
    extract_frames buffer = (frames, rest) /\
    exit_state rest /\
    length rest <= MAX_BUFFER_SIZE.
Proof.
  intros buffer.
  destruct (extract_frames_loop_total (extract_frames_fuel buffer) buffer)
    as (frames & rest & H & _ & Hexit & _).
  { unfold extract_frames_fuel. lia. }
  exists frames, rest. split; [exact H|]. split.
  - pose proof (extract_frames_run buffer) as Hrun. congruence.
  - split; [exact Hexit|].
    destruct Hexit as [Hshort|[_ Hle]]; [|exact Hle].
    unfold MIN_FRAME_SIZE in Hshort. unfold MAX_BUFFER_SIZE. lia.
Qed.

(** *** Two frames between garbage *)

Lemma no_frame_starts_spec : forall buffer lo hi,
  no_frame_starts buffer lo hi = true <->
  (forall start_pos frame_len,
      lo <= start_pos < hi ->
      MIN_FRAME_SIZE <= frame_len <= MAX_FRAME_SIZE ->
      start_pos + frame_len <= length buffer ->
      verify_crc (firstn frame_len (skipn start_pos buffer)) = false).
Proof.
  intros buffer lo hi. unfold no_frame_starts.
  rewrite forallb_forall. split.
  - intros H s l Hs Hl Hfit.
    assert (Hin : In s (seq lo (hi - lo))) by (apply in_seq; lia).
    specialize (H s Hin). rewrite forallb_forall in H.
    assert (Hin' : In l (seq MIN_FRAME_SIZE (MAX_FRAME_SIZE + 1 - MIN_FRAME_SIZE))).
    { apply in_seq. unfold MIN_FRAME_SIZE, MAX_FRAME_SIZE in *. lia. }
    specialize (H l Hin'). apply negb_true_iff in H.
    apply andb_false_iff in H as [H|H]; [|exact H].
    apply Nat.leb_gt in H. lia.
  - intros H s Hs. apply in_seq in Hs. apply forallb_forall. intros l Hl.
    apply in_seq in Hl. apply negb_true_iff.
    destruct (s + l <=? length buffer) eqn:E; [|reflexivity].
    apply Nat.leb_le in E. simpl. apply H; [lia| |exact E].
    unfold MIN_FRAME_SIZE, MAX_FRAME_SIZE in *. lia.
Qed.

Lemma shortest_at_start_spec : forall frame,
  shortest_at_start frame = true <->
  (forall frame_len,
      MIN_FRAME_SIZE <= frame_len < length frame ->
      verify_crc (firstn frame_len frame) = false).
Proof.
  intros frame. unfold shortest_at_start. rewrite forallb_forall. split.
  - intros H l Hl. apply negb_true_iff. apply H. apply in_seq. lia.
  - intros H l Hl. apply in_seq in Hl. apply negb_true_iff. apply H. lia.
Qed.

Lemma no_frame_starts_skipn : forall buffer n k,
  no_frame_starts buffer n (n + k) = true ->
  no_frame_starts (skipn n buffer) 0 k = true.
Proof.
  intros buffer n k H. rewrite no_frame_starts_spec in *.
  intros s l Hs Hl Hfit. rewrite length_skipn in Hfit.
  unfold MIN_FRAME_SIZE in *.
  rewrite skipn_skipn. apply H; lia.
Qed.

(** One pass over [garbage ++ frame ++ tail]: the garbage is skipped, the
    frame is handed on, and the loop goes on with [tail]. *)
Lemma extract_frames_loop_frame : forall fuel garbage frame tail,
  verify_crc frame = true ->
  length frame < MAX_FRAME_SIZE ->
  shortest_at_start frame = true ->
  no_frame_starts (garbage ++ frame ++ tail) 0 (length garbage) = true ->
  extract_frames_loop (S fuel) (garbage ++ frame ++ tail) =
  match extract_frames_loop fuel tail with
  | Some (frames, rest) => Some (frame :: frames, rest)
  | None => None
  end.
Proof.
  intros fuel garbage frame tail Hv Hmax Hshort Hgarbage.
  pose proof (verify_crc_length _ Hv) as Hmin.
  rewrite no_frame_starts_spec in Hgarbage.
  rewrite shortest_at_start_spec in Hshort.
  set (buffer := garbage ++ frame ++ tail) in *.
  assert (Hlen : length buffer = length garbage + (length frame + length tail)).
  { unfold buffer. now rewrite !length_app. }
  assert (Hskip : skipn (length garbage) buffer = frame ++ tail).
  { unfold buffer. rewrite skipn_app, Nat.sub_diag, skipn_all. reflexivity. }
  assert (Hfind : find_frame buffer = Some (length garbage, length frame)).
  { unfold find_frame. unfold MIN_FRAME_SIZE in Hmin.
    apply scan_starts_first; [lia| |].
    - intros s Hs. unfold scan_lengths, frame_len_range.
      apply find_seq_none. intros l Hl. rewrite length_skipn in Hl.
      unfold MIN_FRAME_SIZE, MAX_FRAME_SIZE in *.
      apply Hgarbage; lia.
    - rewrite Hskip. unfold scan_lengths, frame_len_range.
      apply find_seq_first.
      + rewrite length_app. unfold MIN_FRAME_SIZE, MAX_FRAME_SIZE in *. lia.
      + rewrite firstn_app, Nat.sub_diag, firstn_all. simpl.
        now rewrite app_nil_r.
      + intros l Hl. rewrite firstn_app.
        replace (l - length frame) with 0 by lia. simpl.
        rewrite app_nil_r. apply Hshort. lia. }
  rewrite extract_frames_loop_S, Hfind.
  replace (length buffer <? MIN_FRAME_SIZE) with false
    by (symmetry; apply Nat.ltb_ge; lia).
  rewrite Hskip, firstn_app, Nat.sub_diag, firstn_all. simpl firstn.
  rewrite app_nil_r.
  replace (skipn (length garbage + length frame) buffer) with tail.
  - reflexivity.
  - rewrite Nat.add_comm, <- skipn_skipn, Hskip.
    rewrite skipn_app, Nat.sub_diag, skipn_all. reflexivity.
Qed.

(** C1 (as amended).  Let the buffer be [garbage1 ++ A ++ garbage2 ++ B],
    where [A] and [B] pass [verify_crc], have at most [MAX_FRAME_SIZE - 1]
    bytes, have no proper prefix that passes [verify_crc], and no slice of
    [MIN_FRAME_SIZE] to [MAX_FRAME_SIZE] bytes starting in either stretch of
    garbage passes [verify_crc].  Then [extract_frames] hands [A] and then
    [B] to [process_frame], returns an empty buffer, and every frame it hands
    on has between [MIN_FRAME_SIZE] and [MAX_FRAME_SIZE] bytes. *)
Theorem extract_frames_two_frames : forall garbage1 A garbage2 B : bytes,
  verify_crc A = true ->
  verify_crc B = true ->
  length A < MAX_FRAME_SIZE ->
  length B < MAX_FRAME_SIZE ->
  shortest_at_start A = true ->
  shortest_at_start B = true ->
  no_frame_starts (garbage1 ++ A ++ garbage2 ++ B) 0 (length garbage1) = true ->
  no_frame_starts (garbage1 ++ A ++ garbage2 ++ B)
                  (length garbage1 + length A)
                  (length garbage1 + length A + length garbage2) = true ->
  extract_frames (garbage1 ++ A ++ garbage2 ++ B) = ([A; B], [])
  /\ Forall (fun frame => MIN_FRAME_SIZE <= length frame <= MAX_FRAME_SIZE)
            (fst (extract_frames (garbage1 ++ A ++ garbage2 ++ B))).
Proof.
  intros garbage1 A garbage2 B HvA HvB HmaxA HmaxB HshortA HshortB Hg1 Hg2.
  split.
  - assert (Hrun : extract_frames_loop 3 (garbage1 ++ A ++ garbage2 ++ B)
                   = Some ([A; B], [])).
    { rewrite extract_frames_loop_frame by assumption.
      replace (garbage2 ++ B) with (garbage2 ++ B ++ []) by now rewrite app_nil_r.
      rewrite extract_frames_loop_frame; try assumption; [reflexivity|].
      rewrite app_nil_r.
      apply no_frame_starts_skipn in Hg2.
      rewrite <- length_app, app_assoc in Hg2.
      rewrite skipn_app, Nat.sub_diag, skipn_all in Hg2.
      exact Hg2. }
    pose proof (verify_crc_length _ HvA) as HminA.
    unfold MIN_FRAME_SIZE in HminA.
    apply extract_frames_loop_more_fuel with (fuel' := extract_frames_fuel (garbage1 ++ A ++ garbage2 ++ B)) in Hrun.
    + rewrite extract_frames_run in Hrun. now injection Hrun.
    + unfold extract_frames_fuel. rewrite !length_app. lia.
  - pose proof (extract_frames_emitted (garbage1 ++ A ++ garbage2 ++ B)) as H.
    eapply Forall_impl; [|exact H].
    intros frame [Hlen _]. lia.
Qed.

Lemma extract_frames_two_frames_witness :
  extract_frames
    (Samples.garbage1 ++ Samples.request ++ Samples.garbage2 ++ Samples.response)
  = ([Samples.request; Samples.response], [])
  /\ Forall (fun frame => MIN_FRAME_SIZE <= length frame <= MAX_FRAME_SIZE)
            (fst (extract_frames
                    (Samples.garbage1 ++ Samples.request
                       ++ Samples.garbage2 ++ Samples.response))).
Proof.
  apply (extract_frames_two_frames
           Samples.garbage1 Samples.request Samples.garbage2 Samples.response);
    by_vm.
Defined.

(** C1 (as stated) fails in two ways.  First, [Samples.nested] passes
    [verify_crc] and so do its first four bytes; between garbage in which no
    frame starts, the extractor hands on those four bytes, not the frame.
    Second, [Samples.frame_256] passes [verify_crc] and has exactly
    [MAX_FRAME_SIZE] bytes; followed directly by a second frame, with no
    garbage at all, it is not among the frames the extractor hands on. *)
Lemma extract_frames_misses_stated_frames :
  (verify_crc Samples.nested = true
   /\ verify_crc Samples.response = true
   /\ MIN_FRAME_SIZE <= length Samples.nested <= MAX_FRAME_SIZE
   /\ MIN_FRAME_SIZE <= length Samples.response <= MAX_FRAME_SIZE
   /\ no_frame_starts
        (Samples.garbage1 ++ Samples.nested ++ Samples.garbage2 ++ Samples.response)
        0 2 = true
   /\ no_frame_starts
        (Samples.garbage1 ++ Samples.nested ++ Samples.garbage2 ++ Samples.response)
        8 11 = true
   /\ extract_frames
        (Samples.garbage1 ++ Samples.nested ++ Samples.garbage2 ++ Samples.response)
      = ([firstn 4 Samples.nested; Samples.response], [])
   /\ fst (extract_frames
             (Samples.garbage1 ++ Samples.nested
                ++ Samples.garbage2 ++ Samples.response))
      <> [Samples.nested; Samples.response])
  /\
  (verify_crc Samples.frame_256 = true
   /\ length Samples.frame_256 = MAX_FRAME_SIZE
   /\ no_frame_starts ([] ++ Samples.frame_256 ++ [] ++ Samples.response)
                      0 0 = true
   /\ no_frame_starts ([] ++ Samples.frame_256 ++ [] ++ Samples.response)
                      256 256 = true
   /\ fst (extract_frames ([] ++ Samples.frame_256 ++ [] ++ Samples.response))
      <> [Samples.frame_256; Samples.response]).
Proof.
  split.
  - assert (E : extract_frames
                  (Samples.garbage1 ++ Samples.nested
                     ++ Samples.garbage2 ++ Samples.response)
                = ([firstn 4 Samples.nested; Samples.response], []))
      by (vm_compute; reflexivity).
    split_all; try exact E; try by_vm.
    rewrite E. intros H. vm_compute in H. discriminate.
  - split_all; try by_vm; try reflexivity.
    intros H.
    pose proof (extract_frames_emitted
                  ([] ++ Samples.frame_256 ++ [] ++ Samples.response)) as Hall.
    rewrite H in Hall. inversion Hall as [|? ? [[_ Hlen] _] _]; subst.
    apply Nat.ltb_lt in Hlen. vm_compute in Hlen. discriminate.
Qed.

(** C6: the code against the claim.  The lengths tried at a start offset
    run from [MIN_FRAME_SIZE] to the smaller of the remaining bytes and
    [MAX_FRAME_SIZE - 1].  [Samples.frame_256] has exactly [MAX_FRAME_SIZE]
    bytes and passes [verify_crc], and whatever the buffer, it is not among
    the frames [extract_frames] hands on: each of them is shorter than
    [MAX_FRAME_SIZE]. *)
Theorem extract_frames_skips_frame_of_max_size :
  length Samples.frame_256 = MAX_FRAME_SIZE
  /\ verify_crc Samples.frame_256 = true
  /\ (forall remaining : bytes,
        frame_len_range remaining
        = seq MIN_FRAME_SIZE
              (Nat.min (length remaining) (MAX_FRAME_SIZE - 1) + 1
               - MIN_FRAME_SIZE))
  /\ (forall buffer : bytes,
        Forall (fun frame => length frame < MAX_FRAME_SIZE
                             /\ frame <> Samples.frame_256)
               (fst (extract_frames buffer))).
Proof.
  split_all; try by_vm.
  - intros remaining. unfold frame_len_range. f_equal.
    unfold MAX_FRAME_SIZE, MIN_FRAME_SIZE. lia.
  - intros buffer.
    eapply Forall_impl; [|apply (extract_frames_emitted buffer)].
    intros frame [[_ Hlen] _]. split; [exact Hlen|].
    intros ->. apply Nat.ltb_lt in Hlen. vm_compute in Hlen. discriminate.
Qed.
(** ** Frame classifier *)

(** C2.  [is_modbus_request] is a function of the function code and of the
    frame's length alone: with bit 7 of the code set it answers [false]; for
    the codes 0x01 to 0x04 it answers whether the length is at most 8; for
    0x06 whether the length is 8; for 0x10 whether the length exceeds 9; for
    every other code it answers [true].  So code 0x03 with 8 bytes is a
    request, and code 0x83 is a response at any length. *)
Theorem is_modbus_request_decision_table :
  forall (function_code : byte) (frame_data : bytes),
  let fc := Byte.to_N function_code in
  (N.testbit fc 7 = true ->
   is_modbus_request function_code frame_data = false)
  /\ (In fc [0x01; 0x02; 0x03; 0x04]%N ->
      is_modbus_request function_code frame_data = (length frame_data <=? 8))
  /\ (fc = 0x06%N ->
      is_modbus_request function_code frame_data = (length frame_data =? 8))
  /\ (fc = 0x10%N ->
      is_modbus_request function_code frame_data = (9 <? length frame_data))
  /\ (N.testbit fc 7 = false ->
      ~ In fc [0x01; 0x02; 0x03; 0x04; 0x06; 0x10]%N ->
      is_modbus_request function_code frame_data = true)
  /\ (forall other : bytes,
        length other = length frame_data ->
        is_modbus_request function_code other
        = is_modbus_request function_code frame_data)
  /\ (length frame_data = 8 -> is_modbus_request x03 frame_data = true)
  /\ is_modbus_request x83 frame_data = false.
Proof.
  intros function_code frame_data fc. subst fc.
  split_all.
  - destruct function_code; intros H; try discriminate H; reflexivity.
  - destruct function_code; intros H; simpl in H;
      try (exfalso; intuition discriminate); reflexivity.
  - destruct function_code; intros H; try discriminate H; reflexivity.
  - destruct function_code; intros H; try discriminate H; reflexivity.
  - destruct function_code; intros H Hother; try discriminate H;
      try reflexivity; exfalso; apply Hother; simpl; tauto.
  - intros other Hlen. unfold is_modbus_request. now rewrite Hlen.
  - intros H. unfold is_modbus_request. simpl. now rewrite H.
  - reflexivity.
Qed.

Lemma is_modbus_request_decision_table_witness :
  is_modbus_request x03 Samples.request = true
  /\ is_modbus_request x83 Samples.request = false.
Proof.
  destruct (is_modbus_request_decision_table x03 Samples.request)
    as (_ & _ & _ & _ & _ & _ & Hread & Herror).
  split; [apply Hread; by_vm | exact Herror].
Defined.

(** ** Dictionaries *)

Section DictFacts.
Context {K V : Type}.
Variable keq : K -> K -> bool.
Hypothesis keq_eq : forall a b, keq a b = true <-> a = b.

Lemma keq_refl : forall a, keq a a = true.
Proof. intros a. now apply keq_eq. Qed.

Lemma keq_neq : forall a b, a <> b -> keq a b = false.
Proof.
  intros a b H. destruct (keq a b) eqn:E; [|reflexivity].
  apply keq_eq in E. contradiction.
Qed.

Lemma dict_get_set_same : forall k (v : V) d,
  dict_get keq k (dict_set keq k v d) = Some v.
Proof.
  intros k v d. induction d as [|[k' v'] d IH]; simpl.
  - now rewrite keq_refl.
  - destruct (keq k k') eqn:E; simpl.
    + now rewrite keq_refl.
    + now rewrite E.
Qed.

Lemma dict_get_set_other : forall k k' (v : V) d,
  k <> k' -> dict_get keq k (dict_set keq k' v d) = dict_get keq k d.
Proof.
  intros k k' v d Hne. induction d as [|[k0 v0] d IH]; simpl.
  - now rewrite keq_neq.
  - destruct (keq k' k0) eqn:E; simpl.
    + apply keq_eq in E. subst k0. now rewrite keq_neq.
    + now rewrite IH.
Qed.

Lemma dict_get_del_same : forall k (d : dict K V),
  dict_get keq k (dict_del keq k d) = None.
Proof.
  intros k d. induction d as [|[k0 v0] d IH]; simpl; [reflexivity|].
  destruct (keq k k0) eqn:E; simpl; [exact IH|].
  now rewrite E.
Qed.

Lemma dict_get_del_other : forall k k' (d : dict K V),
  k <> k' -> dict_get keq k (dict_del keq k' d) = dict_get keq k d.
Proof.
  intros k k' d Hne. induction d as [|[k0 v0] d IH]; simpl; [reflexivity|].
  destruct (keq k' k0) eqn:E; simpl.
  - apply keq_eq in E. subst k0. now rewrite keq_neq.
  - now rewrite IH.
Qed.

Lemma dict_get_none_del : forall k k' (d : dict K V),
  dict_get keq k d = None -> dict_get keq k (dict_del keq k' d) = None.
Proof.
  intros k k' d. induction d as [|[k0 v0] d IH]; simpl; [reflexivity|].
  destruct (keq k k0) eqn:E; [discriminate|]. intros H.
  destruct (keq k' k0); simpl; [now apply IH|].
  rewrite E. now apply IH.
Qed.

Lemma dict_get_in_keys : forall k (d : dict K V),
  dict_get keq k d <> None <-> In k (dict_keys d).
Proof.
  intros k d. induction d as [|[k0 v0] d IH]; simpl.
  - split; [congruence|tauto].
  - destruct (keq k k0) eqn:E.
    + apply keq_eq in E. subst. split; [now left|discriminate].
    + rewrite IH. split; [now right|].
      intros [->|H]; [|exact H]. now rewrite keq_refl in E.
Qed.

Lemma dict_get_in : forall k (v : V) d,
  dict_get keq k d = Some v -> In (k, v) d.
Proof.
  intros k v d. induction d as [|[k0 v0] d IH]; simpl; [discriminate|].
  destruct (keq k k0) eqn:E.
  - apply keq_eq in E. intros H. injection H as ->. subst. now left.
  - intros H. right. now apply IH.
Qed.

Lemma dict_keys_set_in : forall k k' (v : V) d,
  In k (dict_keys (dict_set keq k' v d)) <-> k = k' \/ In k (dict_keys d).
Proof.
  intros k k' v d. induction d as [|[k0 v0] d IH]; simpl.
  - intuition.
  - destruct (keq k' k0) eqn:E; simpl.
    + apply keq_eq in E. subst. intuition.
    + rewrite IH. intuition.
Qed.

Lemma dict_keys_set_nodup : forall k (v : V) d,
  NoDup (dict_keys d) -> NoDup (dict_keys (dict_set keq k v d)).
Proof.
  intros k v d. induction d as [|[k0 v0] d IH]; simpl; intros H.
  - constructor; [tauto|constructor].
  - inversion H as [|? ? Hnotin Hrest]; subst.
    destruct (keq k k0) eqn:E; simpl.
    + apply keq_eq in E. subst. now constructor.
    + constructor; [|now apply IH].
      rewrite dict_keys_set_in. intros [->|Hin]; [|contradiction].
      now rewrite keq_refl in E.
Qed.

Lemma dict_keys_del_nodup : forall k (d : dict K V),
  NoDup (dict_keys d) -> NoDup (dict_keys (dict_del keq k d)).
Proof.
  intros k d. induction d as [|[k0 v0] d IH]; simpl; intros H;
    [constructor|].
  inversion H as [|? ? Hnotin Hrest]; subst.
  destruct (keq k k0); simpl; [now apply IH|].
  constructor; [|now apply IH].
  intros Hin. apply Hnotin. unfold dict_keys, dict_del in *.
  apply in_map_iff in Hin as ([k1 v1] & Hk & Hin). simpl in Hk. subst.
  apply filter_In in Hin as [Hin _].
  apply in_map_iff. now exists (k0, v1).
Qed.

(** In a dictionary without repeated keys, assigning to a key that is
    present keeps the number of entries, and assigning to a new key adds
    one at the end. *)
Lemma dict_set_length : forall k (v : V) d,
  length (dict_set keq k v d)
  = if dict_mem keq k d then length d else S (length d).
Proof.
  intros k v d. unfold dict_mem.
  induction d as [|[k0 v0] d IH]; simpl; [reflexivity|].
  destruct (keq k k0); simpl; [reflexivity|].
  rewrite IH. now destruct (dict_get keq k d).
Qed.
End DictFacts.

Lemma byte_eqb_eq : forall a b : byte, Byte.eqb a b = true <-> a = b.
Proof.
  intros a b. split; [apply Byte.byte_dec_bl|apply Byte.byte_dec_lb].
Qed.

(** ** Frame processing *)

(** Unfolds the record updates of the sniffer state, and nothing else. *)
Ltac state_simpl :=
  cbn [fst snd with_stats with_pending with_slave_stats with_discovered
       update_slave_stats stats bump total_frames valid_frames mqtt
       pending_requests andb] in *.

Lemma keeps_frame_state_refl : forall self, keeps_frame_state self self.
Proof. intros self. repeat split. Qed.

Lemma keeps_frame_state_trans : forall a b c,
  keeps_frame_state a b -> keeps_frame_state b c -> keeps_frame_state a c.
Proof.
  intros a b c (H1 & H2 & H3 & H4) (H5 & H6 & H7 & H8).
  repeat split; congruence.
Qed.

Lemma update_slave_stats_keeps : forall self slave_id stat_type,
  keeps_frame_state self (update_slave_stats self slave_id stat_type).
Proof. intros. repeat split. Qed.

Lemma bump_mqtt_publishes_keeps : forall self,
  keeps_frame_state self (with_stats (bump st_mqtt_publishes) self).
Proof. intros. repeat split. Qed.

Lemma snapshots_app : forall a b,
  snapshots (a ++ b) = snapshots a + snapshots b.
Proof.
  intros a b. unfold snapshots. now rewrite filter_app, length_app.
Qed.

Lemma setup_ha_sensors_for_slave_keeps : forall self slave_id,
  keeps_frame_state self (fst (setup_ha_sensors_for_slave self slave_id))
  /\ snapshots (snd (setup_ha_sensors_for_slave self slave_id)) = 0.
Proof.
  intros self slave_id. unfold setup_ha_sensors_for_slave.
  destruct (negb (mqtt self) || existsb (Byte.eqb slave_id) (discovered_slaves self));
    simpl; split; try reflexivity; repeat split.
Qed.

Lemma publish_readings_keeps : forall device_id parsed_data self,
  keeps_frame_state self (fst (publish_readings self device_id parsed_data))
  /\ snapshots (snd (publish_readings self device_id parsed_data)) = 0.
Proof.
  intros device_id parsed_data self. unfold publish_readings.
  assert (G : forall items acc,
             keeps_frame_state self (fst acc) -> snapshots (snd acc) = 0 ->
             let r := fold_left
               (fun (acc : Sniffer * list Event) (item : string * Reading) =>
                  let (self, events) := acc in
                  let (sensor_name, sensor_data) := item in
                  let event :=
                    match rd_device_class sensor_data with
                    | Some c =>
                        if String.eqb c "binary_sensor"%string
                        then PublishBinarySensor sensor_name device_id (rd_value sensor_data)
                        else PublishSensor sensor_name device_id (rd_value sensor_data)
                    | None => PublishSensor sensor_name device_id (rd_value sensor_data)
                    end in
                  let self := with_stats (bump st_mqtt_publishes) self in
                  let self := update_slave_stats self device_id st_mqtt_publishes in
                  (self, events ++ [event])) items acc in
             keeps_frame_state self (fst r) /\ snapshots (snd r) = 0).
  { induction items as [|[name data] items IH]; intros [s evs] Hk Hs; simpl.
    - now split.
    - apply IH; simpl.
      + simpl in Hk. destruct Hk as (H1 & H2 & H3 & H4). repeat split; assumption.
      + simpl in Hs. rewrite snapshots_app, Hs.
        destruct (rd_device_class data) as [c|]; [|reflexivity].
        now destruct (String.eqb c "binary_sensor"). }
  apply G; [apply keeps_frame_state_refl|reflexivity].
Qed.

Lemma handle_sensor_data_keeps :
  forall self response_frame request_frame device_id response_time,
  keeps_frame_state self
    (fst (handle_sensor_data self response_frame request_frame device_id
                             response_time))
  /\ snapshots (snd (handle_sensor_data self response_frame request_frame
                                        device_id response_time)) = 0.
Proof.
  intros self response_frame request_frame device_id response_time.
  unfold handle_sensor_data.
  destruct request_frame as [request_frame|];
    [|split; [apply keeps_frame_state_refl|reflexivity]].
  destruct (negb (mqtt self) || (length request_frame =? 0)
            || negb (existsb (N.eqb (Byte.to_N (nth 1 response_frame x00)))
                             [3%N; 4%N]));
    [split; [apply keeps_frame_state_refl|reflexivity]|].
  destruct (firstn 2 (skipn 2 request_frame)) as [|hi [|lo [|? ?]]];
    try (split; [apply keeps_frame_state_refl|reflexivity]).
  pose proof (setup_ha_sensors_for_slave_keeps self device_id) as [Hk1 Hs1].
  destruct (setup_ha_sensors_for_slave self device_id) as [self1 ev_setup].
  simpl in Hk1, Hs1.
  pose proof (publish_readings_keeps device_id
                (parse_read_response (unpack_be_H hi lo)
                                     (response_values response_frame)) self1)
    as [Hk2 Hs2].
  destruct (publish_readings self1 device_id _) as [self2 ev_data].
  simpl in Hk2, Hs2. simpl. split.
  - eapply keeps_frame_state_trans; eassumption.
  - rewrite !snapshots_app, Hs1, Hs2. reflexivity.
Qed.

Lemma publish_stats_snapshots : forall self,
  snapshots (publish_stats self) = if mqtt self then 1 else 0.
Proof. intros self. unfold publish_stats. now destruct (mqtt self). Qed.

Lemma process_frame_short : forall self frame_data current_time,
  length frame_data < MIN_FRAME_SIZE ->
  process_frame self frame_data current_time
  = (with_stats (bump st_total_frames) self, []).
Proof.
  intros self frame_data current_time H. unfold process_frame.
  apply Nat.ltb_lt in H. now rewrite H.
Qed.

(** What a call of [process_frame] on a frame of [MIN_FRAME_SIZE] bytes or
    more does to the pending table, to the counters and to the events. *)
Lemma process_frame_effect : forall self frame_data current_time,
  MIN_FRAME_SIZE <= length frame_data ->
  let device_id := nth 0 frame_data x00 in
  let function_code := nth 1 frame_data x00 in
  let after := fst (process_frame self frame_data current_time) in
  let events := snd (process_frame self frame_data current_time) in
  mqtt after = mqtt self
  /\ total_frames (stats after) = (total_frames (stats self) + 1)%N
  /\ valid_frames (stats after) = (valid_frames (stats self) + 1)%N
  /\ snapshots events
     = (if ((total_frames (stats self) + 1) mod STATS_PUBLISH_INTERVAL =? 0)%N
           && mqtt self then 1 else 0)
  /\ (if is_modbus_request function_code frame_data
      then pending_requests after
           = dict_set Byte.eqb device_id
                      (mkPending frame_data current_time function_code)
                      (pending_requests self)
           /\ exists rest, events = LogRequest device_id frame_data :: rest
      else pending_requests after
           = match dict_get Byte.eqb device_id (pending_requests self) with
             | Some _ => dict_del Byte.eqb device_id (pending_requests self)
             | None => pending_requests self
             end
           /\ exists rest,
               events = LogResponse device_id
                          (fst (correlate (pending_requests self) device_id
                                          current_time))
                          (snd (correlate (pending_requests self) device_id
                                          current_time)) :: rest).
Proof.
  intros self frame_data current_time Hlen device_id function_code.
  unfold process_frame. fold device_id. fold function_code.
  replace (length frame_data <? MIN_FRAME_SIZE) with false
    by (symmetry; now apply Nat.ltb_ge).
  destruct (is_modbus_request function_code frame_data) eqn:Ereq.
  - state_simpl.
    destruct ((total_frames (stats self) + 1) mod STATS_PUBLISH_INTERVAL =? 0)%N;
      state_simpl; split_all; try reflexivity; try (eexists; reflexivity).
    rewrite snapshots_app, publish_stats_snapshots. reflexivity.
  - unfold correlate. state_simpl.
    destruct (dict_get Byte.eqb device_id (pending_requests self))
      as [pending|] eqn:Eget;
    match goal with
    | |- context [handle_sensor_data ?s ?f ?r ?d ?t] =>
        pose proof (handle_sensor_data_keeps s f r d t) as [(K1 & K2 & K3 & K4) Hs];
        destruct (handle_sensor_data s f r d t) as [self1 ev_sensor]
    end;
    state_simpl; rewrite K3;
    (destruct ((total_frames (stats self) + 1) mod STATS_PUBLISH_INTERVAL =? 0)%N;
     state_simpl; split_all; try assumption;
     try (rewrite ?K3, ?K4; reflexivity); try (eexists; reflexivity));
    rewrite snapshots_app, publish_stats_snapshots; state_simpl;
    rewrite K1; unfold snapshots in *; simpl; rewrite Hs; reflexivity.
Qed.

Section DictCount.
Context {K V : Type}.
Variable keq : K -> K -> bool.
Hypothesis keq_eq : forall a b, keq a b = true <-> a = b.

Lemma dict_count_absent : forall k (d : dict K V),
  ~ In k (dict_keys d) -> dict_count keq k d = 0.
Proof.
  intros k d. unfold dict_count.
  induction d as [|[k0 v0] d IH]; simpl; intros H; [reflexivity|].
  rewrite (keq_neq keq keq_eq) by (intros ->; apply H; now left).
  apply IH. intros Hin. apply H. now right.
Qed.

Lemma dict_count_nodup : forall k (d : dict K V),
  NoDup (dict_keys d) -> In k (dict_keys d) -> dict_count keq k d = 1.
Proof.
  intros k d. induction d as [|[k0 v0] d IH]; simpl; intros Hnd Hin;
    [contradiction|].
  inversion Hnd as [|? ? Hnotin Hrest]; subst.
  unfold dict_count. simpl. destruct (keq k k0) eqn:E.
  - apply keq_eq in E. subst. simpl. f_equal.
    now apply dict_count_absent.
  - destruct Hin as [->|Hin]; [now rewrite (keq_refl keq keq_eq) in E|].
    now apply IH.
Qed.
End DictCount.

(** The pending table never holds a device twice. *)
Lemma reachable_pending_nodup : forall self,
  reachable self -> NoDup (dict_keys (pending_requests self)).
Proof.
  intros self H. induction H as [m|self frame_data current_time Hr IH Hv].
  - constructor.
  - apply verify_crc_length in Hv.
    destruct (process_frame_effect self frame_data current_time Hv)
      as (_ & _ & _ & _ & Hp).
    destruct (is_modbus_request (nth 1 frame_data x00) frame_data).
    + destruct Hp as [-> _].
      now apply (dict_keys_set_nodup Byte.eqb byte_eqb_eq).
    + destruct Hp as [-> _].
      destruct (dict_get Byte.eqb (nth 0 frame_data x00) (pending_requests self));
        [now apply dict_keys_del_nodup|exact IH].
Qed.

(** The two frame counters agree in every reachable state. *)
Lemma reachable_total_valid : forall self,
  reachable self -> total_frames (stats self) = valid_frames (stats self).
Proof.
  intros self H. induction H as [m|self frame_data current_time Hr IH Hv].
  - reflexivity.
  - apply verify_crc_length in Hv.
    destruct (process_frame_effect self frame_data current_time Hv)
      as (_ & Ht & Hvalid & _).
    rewrite Ht, Hvalid, IH. reflexivity.
Qed.

Lemma reachable_process_frames : forall trace self,
  reachable self ->
  Forall (fun item => verify_crc (fst item) = true) trace ->
  reachable (fst (process_frames self trace)).
Proof.
  induction trace as [|[frame_data current_time] trace IH];
    intros self Hr Hall; simpl; [exact Hr|].
  inversion Hall as [|? ? Hv Hrest]; subst. simpl in Hv.
  pose proof (reach_frame self frame_data current_time Hr Hv) as Hstep.
  destruct (process_frame self frame_data current_time) as [self1 events].
  simpl in Hstep. specialize (IH self1 Hstep Hrest).
  now destruct (process_frames self1 trace).
Qed.

(** Frames that are not requests for a device leave it without a pending
    entry if it had none. *)
Lemma process_frames_keeps_no_pending : forall device_id trace self,
  dict_get Byte.eqb device_id (pending_requests self) = None ->
  Forall (fun item => is_request_for device_id (fst item) = false) trace ->
  dict_get Byte.eqb device_id
           (pending_requests (fst (process_frames self trace))) = None.
Proof.
  intros device_id. induction trace as [|[frame_data current_time] trace IH];
    intros self Hnone Hall; simpl; [exact Hnone|].
  inversion Hall as [|? ? Hnot Hrest]; subst. simpl in Hnot.
  assert (Hstep : dict_get Byte.eqb device_id
            (pending_requests (fst (process_frame self frame_data current_time)))
          = None).
  { destruct (Nat.lt_ge_cases (length frame_data) MIN_FRAME_SIZE) as [Hs|Hl].
    - now rewrite process_frame_short.
    - destruct (process_frame_effect self frame_data current_time Hl)
        as (_ & _ & _ & _ & Hp).
      unfold is_request_for in Hnot.
      apply Nat.leb_le in Hl. rewrite Hl in Hnot. simpl in Hnot.
      destruct (is_modbus_request (nth 1 frame_data x00) frame_data).
      + destruct Hp as [-> _]. rewrite andb_true_r in Hnot.
        rewrite (dict_get_set_other Byte.eqb byte_eqb_eq); [exact Hnone|].
        intros Heq. rewrite <- Heq in Hnot.
        now rewrite (proj2 (byte_eqb_eq _ _) eq_refl) in Hnot.
      + destruct Hp as [-> _].
        destruct (dict_get Byte.eqb (nth 0 frame_data x00) (pending_requests self));
          [|exact Hnone].
        now apply (dict_get_none_del Byte.eqb). }
  destruct (process_frame self frame_data current_time) as [self1 events].
  simpl in Hstep. specialize (IH self1 Hstep Hrest).
  now destruct (process_frames self1 trace).
Qed.

(** C5.  When [process_frame] files a frame for device [d] as a response: if
    the pending table holds a request for [d], the response is reported with
    the latency (arrival time minus the request's stored time, in
    milliseconds) and with that request's frame, and the entry for [d] is
    removed; if it holds none, the response is reported with latency 0, the
    sniffer's value for an unknown latency, and with no request frame.
    Entries of other devices stay as they are.  After a response for [d],
    and any frames that are not requests for [d], a further response for [d]
    is reported with latency 0 and no request frame. *)
Theorem response_matches_pending_request :
  forall (self : Sniffer) (frame_data : bytes) (current_time : float),
  MIN_FRAME_SIZE <= length frame_data ->
  is_modbus_request (nth 1 frame_data x00) frame_data = false ->
  let device_id := nth 0 frame_data x00 in
  let after := fst (process_frame self frame_data current_time) in
  let events := snd (process_frame self frame_data current_time) in
  (forall request,
      dict_get Byte.eqb device_id (pending_requests self) = Some request ->
      exists rest,
        events = LogResponse device_id
                   (PyFloat (PrimFloat.mul
                               (PrimFloat.sub current_time (pr_time request))
                               1000%float))
                   (Some (pr_frame request)) :: rest)
  /\ (dict_get Byte.eqb device_id (pending_requests self) = None ->
      exists rest, events = LogResponse device_id (PyInt 0) None :: rest)
  /\ dict_get Byte.eqb device_id (pending_requests after) = None
  /\ (forall other,
        other <> device_id ->
        dict_get Byte.eqb other (pending_requests after)
        = dict_get Byte.eqb other (pending_requests self))
  /\ (forall between later_frame later_time,
        Forall (fun item => is_request_for device_id (fst item) = false)
               between ->
        MIN_FRAME_SIZE <= length later_frame ->
        nth 0 later_frame x00 = device_id ->
        is_modbus_request (nth 1 later_frame x00) later_frame = false ->
        exists rest,
          snd (process_frame (fst (process_frames after between))
                             later_frame later_time)
          = LogResponse device_id (PyInt 0) None :: rest).
Proof.
  intros self frame_data current_time Hlen Hcls device_id after events.
  destruct (process_frame_effect self frame_data current_time Hlen)
    as (_ & _ & _ & _ & Hp).
  rewrite Hcls in Hp. destruct Hp as [Hpending [rest Hevents]].
  fold device_id in Hpending, Hevents. fold after in Hpending.
  fold events in Hevents. unfold correlate in Hevents.
  assert (Hgone : dict_get Byte.eqb device_id (pending_requests after) = None).
  { rewrite Hpending.
    destruct (dict_get Byte.eqb device_id (pending_requests self)) eqn:E;
      [apply (dict_get_del_same Byte.eqb)|exact E]. }
  split_all.
  - intros request Hsome. rewrite Hsome in Hevents. now exists rest.
  - intros Hnone. rewrite Hnone in Hevents. now exists rest.
  - exact Hgone.
  - intros other Hother. rewrite Hpending.
    destruct (dict_get Byte.eqb device_id (pending_requests self));
      [|reflexivity].
    now apply (dict_get_del_other Byte.eqb byte_eqb_eq).
  - intros between later_frame later_time Hbetween Hlater Hdev Hlatercls.
    pose proof (process_frames_keeps_no_pending device_id between after
                  Hgone Hbetween) as Hstill.
    destruct (process_frame_effect (fst (process_frames after between))
                later_frame later_time Hlater) as (_ & _ & _ & _ & Hq).
    rewrite Hlatercls, Hdev in Hq. destruct Hq as [_ [rest' Hq]].
    unfold correlate in Hq. rewrite Hstill in Hq. now exists rest'.
Qed.

Lemma response_matches_pending_request_witness :
  (exists rest,
      snd (process_frame Runs.awaiting Samples.response 1.75%float)
      = LogResponse x01 (PyFloat 250%float) (Some Samples.request) :: rest)
  /\ dict_get Byte.eqb x01
       (pending_requests
          (fst (process_frame Runs.awaiting Samples.response 1.75%float)))
     = None.
Proof.
  destruct (response_matches_pending_request
              Runs.awaiting Samples.response 1.75%float
              ltac:(by_vm) ltac:(by_vm))
    as (Hsome & _ & Hgone & _).
  split; [|exact Hgone].
  destruct (Hsome (mkPending Samples.request 1.5%float x03) ltac:(by_vm))
    as [rest Hrest].
  exists rest. rewrite Hrest. vm_compute. reflexivity.
Defined.

(** C9.  In every reachable state no device has two entries in the pending
    table.  Processing a frame filed as a request for device [d] leaves [d]
    with exactly one entry, holding that frame, its arrival time and its
    function code, whether or not [d] had an entry before; the table grows
    by one entry only when [d] had none, and the entries of other devices
    stay as they are. *)
Theorem pending_request_overwritten : forall self : Sniffer,
  reachable self ->
  NoDup (dict_keys (pending_requests self))
  /\ forall (frame_data : bytes) (current_time : float),
       MIN_FRAME_SIZE <= length frame_data ->
       is_modbus_request (nth 1 frame_data x00) frame_data = true ->
       let device_id := nth 0 frame_data x00 in
       let after := fst (process_frame self frame_data current_time) in
       dict_get Byte.eqb device_id (pending_requests after)
       = Some (mkPending frame_data current_time (nth 1 frame_data x00))
       /\ dict_count Byte.eqb device_id (pending_requests after) = 1
       /\ length (pending_requests after)
          = (if dict_mem Byte.eqb device_id (pending_requests self)
             then length (pending_requests self)
             else S (length (pending_requests self)))
       /\ (forall other,
             other <> device_id ->
             dict_get Byte.eqb other (pending_requests after)
             = dict_get Byte.eqb other (pending_requests self)).
Proof.
  intros self Hr. pose proof (reachable_pending_nodup self Hr) as Hnd.
  split; [exact Hnd|].
  intros frame_data current_time Hlen Hcls device_id after.
  destruct (process_frame_effect self frame_data current_time Hlen)
    as (_ & _ & _ & _ & Hp).
  rewrite Hcls in Hp. destruct Hp as [Hpending _].
  fold device_id in Hpending. fold after in Hpending. rewrite Hpending.
  split_all.
  - apply (dict_get_set_same Byte.eqb byte_eqb_eq).
  - apply (dict_count_nodup Byte.eqb byte_eqb_eq).
    + now apply (dict_keys_set_nodup Byte.eqb byte_eqb_eq).
    + apply (dict_keys_set_in Byte.eqb byte_eqb_eq). now left.
  - apply dict_set_length.
  - intros other Hother.
    now apply (dict_get_set_other Byte.eqb byte_eqb_eq).
Qed.

Lemma pending_request_overwritten_witness :
  NoDup (dict_keys (pending_requests Runs.awaiting))
  /\ dict_get Byte.eqb x01
       (pending_requests
          (fst (process_frame Runs.awaiting Samples.request 2%float)))
     = Some (mkPending Samples.request 2%float x03)
  /\ length (pending_requests
               (fst (process_frame Runs.awaiting Samples.request 2%float)))
     = 1.
Proof.
  assert (Hr : reachable Runs.awaiting).
  { apply reach_frame; [apply reach_new|by_vm]. }
  destruct (pending_request_overwritten Runs.awaiting Hr) as [Hnd Hset].
  destruct (Hset Samples.request 2%float ltac:(by_vm) ltac:(by_vm))
    as (Hget & _ & Hlen & _).
  split; [exact Hnd|]. split; [exact Hget|].
  rewrite Hlen. vm_compute. reflexivity.
Defined.

(** C7 (as amended).  [process_frame] publishes the statistics when
    [total_frames] is a multiple of [STATS_PUBLISH_INTERVAL]; in every
    reachable state [total_frames] equals [valid_frames], so with an MQTT
    client a frame accepted by the extractor triggers exactly one snapshot
    when the count of valid frames, this frame included, is a multiple of 50,
    and none otherwise; without an MQTT client no snapshot is ever
    published. *)
Theorem stats_snapshot_every_interval :
  forall (self : Sniffer) (frame_data : bytes) (current_time : float),
  reachable self ->
  verify_crc frame_data = true ->
  let after := fst (process_frame self frame_data current_time) in
  let events := snd (process_frame self frame_data current_time) in
  total_frames (stats after) = valid_frames (stats after)
  /\ valid_frames (stats after) = (valid_frames (stats self) + 1)%N
  /\ mqtt after = mqtt self
  /\ snapshots events
     = (if mqtt self
           && (valid_frames (stats after) mod STATS_PUBLISH_INTERVAL =? 0)%N
        then 1 else 0).
Proof.
  intros self frame_data current_time Hr Hv after events.
  pose proof (reachable_total_valid self Hr) as Heq.
  apply verify_crc_length in Hv.
  destruct (process_frame_effect self frame_data current_time Hv)
    as (Hm & Ht & Hvalid & Hs & _).
  fold after in Hm, Ht, Hvalid. fold events in Hs.
  split_all; try assumption.
  - congruence.
  - rewrite Hs, Hvalid, Heq. apply f_equal with (f := fun b : bool => if b then 1 else 0).
    apply andb_comm.
Qed.

Lemma stats_snapshot_every_interval_witness :
  valid_frames
    (stats (fst (process_frame Runs.after_49 Samples.request 0%float)))
  = 50%N
  /\ snapshots (snd (process_frame Runs.after_49 Samples.request 0%float)) = 1.
Proof.
  assert (Hr : reachable Runs.after_49).
  { apply reachable_process_frames; [apply reach_new|].
    apply Forall_forall. intros item Hin.
    apply repeat_spec in Hin. subst item. by_vm. }
  destruct (stats_snapshot_every_interval
              Runs.after_49 Samples.request 0%float Hr ltac:(by_vm))
    as (_ & Hvalid & _ & Hs).
  split; [rewrite Hvalid; by_vm | rewrite Hs, Hvalid; by_vm].
Defined.

(** C7 (as stated) fails without an MQTT client: fifty frames that pass
    [verify_crc] are processed and counted as valid, and no snapshot is
    published at any of them. *)
Lemma no_stats_snapshot_without_mqtt :
  forallb (fun item => verify_crc (fst item)) Runs.trace_50 = true
  /\ valid_frames (stats (fst (process_frames (new_sniffer false) Runs.trace_50)))
     = 50%N
  /\ map snapshots (snd (process_frames (new_sniffer false) Runs.trace_50))
     = repeat 0 50.
Proof. split_all; by_vm. Qed.

(** ** Register decoder *)

Lemma dict_get_app : forall {V : Type} k (a b : dict string V),
  dict_get String.eqb k (a ++ b)
  = match dict_get String.eqb k a with
    | Some v => Some v
    | None => dict_get String.eqb k b
    end.
Proof.
  intros V k a b. induction a as [|[k0 v0] a IH]; simpl; [reflexivity|].
  now destruct (String.eqb k k0).
Qed.

(** After a run of assignments a key holds what was assigned to it last, or
    what it held before when the run does not assign to it. *)
Lemma assign_all_get : forall assignments d k,
  dict_get String.eqb k (assign_all assignments d)
  = match dict_get String.eqb k (rev assignments) with
    | Some v => Some v
    | None => dict_get String.eqb k d
    end.
Proof.
  induction assignments as [|[k0 v0] assignments IH]; intros d k;
    [reflexivity|].
  unfold assign_all in *. simpl. rewrite IH, dict_get_app. simpl.
  destruct (dict_get String.eqb k (rev assignments)); [reflexivity|].
  destruct (String.eqb k k0) eqn:E.
  - apply String.eqb_eq in E. subst.
    apply (dict_get_set_same String.eqb String.eqb_eq).
  - apply String.eqb_neq in E.
    now apply (dict_get_set_other String.eqb String.eqb_eq).
Qed.

Lemma assign_all_app : forall a b d,
  assign_all (a ++ b) d = assign_all b (assign_all a d).
Proof. intros a b d. unfold assign_all. apply fold_left_app. Qed.

Lemma _parse_status_bits_assign :
  forall bit_mappings parsed_data value register_addr prefix,
  _parse_status_bits parsed_data value register_addr bit_mappings prefix
  = assign_all (bit_assignments value register_addr bit_mappings prefix)
               parsed_data.
Proof.
  induction bit_mappings as [|[bit_num bit_info] bits IH];
    intros parsed_data value register_addr prefix; [reflexivity|].
  unfold _parse_status_bits, assign_all in *. simpl. apply IH.
Qed.

(** One pass of the loop as a run of assignments. *)
Lemma parse_step_assign : forall start_register parsed_data i raw,
  parse_step start_register parsed_data (i, raw)
  = assign_all (register_assignments (start_register + Z.of_nat i)%Z raw)
               parsed_data.
Proof.
  intros start_register parsed_data i raw.
  unfold parse_step, register_assignments.
  destruct (dict_get Z.eqb (start_register + Z.of_nat i)%Z register_mappings)
    as [mapping|]; [|reflexivity].
  destruct (start_register + Z.of_nat i =? 2108)%Z;
    [now rewrite _parse_status_bits_assign|].
  destruct (start_register + Z.of_nat i =? 2118)%Z; [reflexivity|].
  destruct (start_register + Z.of_nat i =? 2119)%Z;
    [now rewrite _parse_status_bits_assign|].
  reflexivity.
Qed.

Lemma bit_assignments_keys : forall value register_addr bit_mappings prefix,
  map fst (bit_assignments value register_addr bit_mappings prefix)
  = map (fun item => bit_key prefix (snd item)) bit_mappings.
Proof.
  intros. unfold bit_assignments. rewrite map_map. reflexivity.
Qed.

Lemma keys_written_assignments : forall register_addr raw,
  map fst (register_assignments register_addr raw) = keys_written register_addr.
Proof.
  intros register_addr raw. unfold keys_written, register_assignments.
  destruct (dict_get Z.eqb register_addr register_mappings) as [mapping|];
    [|reflexivity].
  destruct (register_addr =? 2108)%Z;
    [cbn [map fst]; now rewrite !bit_assignments_keys|].
  destruct (register_addr =? 2118)%Z; [reflexivity|].
  destruct (register_addr =? 2119)%Z;
    [cbn [map fst]; now rewrite !bit_assignments_keys|].
  reflexivity.
Qed.

(** No key is written for two register addresses. *)
Lemma key_owner_unique : forall register_addr key,
  In key (keys_written register_addr) -> key_owner key = Some register_addr.
Proof.
  intros register_addr key Hin.
  assert (Hcheck :
    forallb (fun item =>
      forallb (fun k => match key_owner k with
                        | Some a => Z.eqb a (fst item)
                        | None => false
                        end)
              (keys_written (fst item)))
      register_mappings = true) by (vm_compute; reflexivity).
  rewrite forallb_forall in Hcheck.
  destruct (dict_get Z.eqb register_addr register_mappings) as [mapping|] eqn:E.
  - apply (dict_get_in Z.eqb Z.eqb_eq) in E.
    specialize (Hcheck _ E). simpl in Hcheck.
    rewrite forallb_forall in Hcheck. specialize (Hcheck key Hin).
    destruct (key_owner key) as [a|]; [|discriminate].
    apply Z.eqb_eq in Hcheck. now subst.
  - unfold keys_written, register_assignments in Hin. rewrite E in Hin.
    contradiction.
Qed.

Lemma dict_get_rev_none : forall (assignments : list (string * Reading)) k,
  ~ In k (map fst assignments) ->
  dict_get String.eqb k (rev assignments) = None.
Proof.
  intros assignments k H.
  destruct (dict_get String.eqb k (rev assignments)) eqn:E; [|reflexivity].
  exfalso. apply H.
  apply (dict_get_in String.eqb String.eqb_eq) in E.
  apply in_rev in E. apply in_map_iff. now exists (k, r).
Qed.

(** The loop of [parse_read_response] from index [n] on. *)
Lemma parse_fold_get :
  forall start_register values n parsed_data i raw key,
  nth_error values i = Some raw ->
  In key (keys_written (start_register + Z.of_nat (n + i))%Z) ->
  dict_get String.eqb key
    (fold_left (parse_step start_register)
               (combine (seq n (length values)) values) parsed_data)
  = dict_get String.eqb key
      (rev (register_assignments (start_register + Z.of_nat (n + i))%Z raw)).
Proof.
  intros start_register values.
  assert (Hlater : forall values n parsed_data key owner,
            key_owner key = Some owner ->
            (owner < start_register + Z.of_nat n)%Z ->
            dict_get String.eqb key
              (fold_left (parse_step start_register)
                         (combine (seq n (length values)) values) parsed_data)
            = dict_get String.eqb key parsed_data).
  { clear values. induction values as [|v values IH];
      intros n parsed_data key owner Hown Hlt; [reflexivity|].
    cbn [combine seq length fold_left].
    rewrite (IH (S n) _ key owner Hown) by lia.
    rewrite parse_step_assign, assign_all_get, dict_get_rev_none;
      [reflexivity|].
    rewrite keys_written_assignments. intros Hin.
    apply key_owner_unique in Hin. rewrite Hown in Hin.
    injection Hin as Hin. lia. }
  induction values as [|v values IH];
    intros n parsed_data i raw key Hnth Hin; [now destruct i|].
  destruct i as [|i]; simpl in Hnth; cbn [combine seq length fold_left].
  - injection Hnth as ->. rewrite Nat.add_0_r in *.
    pose proof (key_owner_unique _ _ Hin) as Hown.
    rewrite (Hlater values (S n) _ key _ Hown) by lia.
    rewrite parse_step_assign, assign_all_get.
    destruct (dict_get String.eqb key
                (rev (register_assignments (start_register + Z.of_nat n)%Z raw)))
      eqn:E; [reflexivity|].
    exfalso. rewrite <- (keys_written_assignments _ raw) in Hin.
    apply in_map_iff in Hin as ([k r] & Hk & Hin). simpl in Hk. subst k.
    apply in_rev in Hin.
    assert (Hsome : dict_get String.eqb key
              (rev (register_assignments (start_register + Z.of_nat n)%Z raw))
            <> None).
    { apply (dict_get_in_keys String.eqb String.eqb_eq).
      apply in_map_iff. now exists (key, r). }
    contradiction.
  - replace (n + S i) with (S n + i) in * by lia.
    now apply IH.
Qed.

(** In the result of [parse_read_response], a key written for the register
    at index [i] holds what the pass for that index assigned to it last. *)
Lemma parse_read_response_get : forall start_register values i raw key,
  nth_error values i = Some raw ->
  In key (keys_written (start_register + Z.of_nat i)%Z) ->
  dict_get String.eqb key (parse_read_response start_register values)
  = dict_get String.eqb key
      (rev (register_assignments (start_register + Z.of_nat i)%Z raw)).
Proof.
  intros start_register values i raw key Hnth Hin.
  unfold parse_read_response, enumerate.
  now apply (parse_fold_get start_register values 0 [] i raw key).
Qed.

Lemma all_from_spec : forall p count z,
  all_from p count z = true ->
  forall x, (z <= x < z + Z.of_nat count)%Z -> p x = true.
Proof.
  intros p. induction count as [|count IH]; intros z H x Hx; [lia|].
  simpl in H. apply andb_prop in H as [Hz Hrest].
  destruct (Z.eq_dec x z) as [->|Hne]; [exact Hz|].
  apply (IH (z + 1)%Z Hrest). lia.
Qed.

(** Every sixteen-bit raw value gives a temperature between
    [TEMPERATURE_MIN] and [TEMPERATURE_MAX]. *)
Lemma temperature_value_bounds : forall raw,
  (0 <= raw < 65536)%Z ->
  py_le (PyInt TEMPERATURE_MIN) (temperature_value raw) = true
  /\ py_le (temperature_value raw) (PyInt TEMPERATURE_MAX) = true.
Proof.
  intros raw Hraw.
  assert (H : all_from
            (fun raw => py_le (PyInt TEMPERATURE_MIN) (temperature_value raw)
                        && py_le (temperature_value raw) (PyInt TEMPERATURE_MAX))
            (Z.to_nat 65536) 0 = true) by (vm_compute; reflexivity).
  pose proof (all_from_spec _ _ _ H raw) as Hx. cbv beta in Hx.
  apply andb_prop. apply Hx. rewrite Z2Nat.id; lia.
Qed.

(** Every temperature entry of [register_mappings] has offset -3000 and
    scale 0.01, and no status bits hang off its address. *)
Lemma temperature_mapping : forall register_addr mapping raw,
  dict_get Z.eqb register_addr register_mappings = Some mapping ->
  is_temperature mapping = true ->
  map_offset mapping = (-3000)%Z
  /\ map_scale mapping = PyFloat 0.01
  /\ register_assignments register_addr raw
     = [(map_name mapping,
         mkReading (scaled_value mapping (signed_value mapping raw))
                   (map_unit mapping) (map_device_class mapping)
                   (RegAddr register_addr) (signed_value mapping raw))].
Proof.
  intros register_addr mapping raw Hget Htemp.
  unfold register_assignments. rewrite Hget.
  apply (dict_get_in Z.eqb Z.eqb_eq) in Hget.
  unfold register_mappings in Hget.
  repeat (destruct Hget as [Hget|Hget];
          [injection Hget as <- <-;
           first [ vm_compute in Htemp; discriminate Htemp
                 | split; [reflexivity|split; reflexivity] ]|]).
  contradiction.
Qed.

(** [float(z)] through the kernel's conversion of the magnitude. *)
Lemma float_of_Z_signed : forall z : Z,
  float_of_Z z
  = if (z <? 0)%Z
    then PrimFloat.opp (PrimFloat.of_uint63 (Uint63.of_Z (- z)))
    else PrimFloat.of_uint63 (Uint63.of_Z z).
Proof. intros z. destruct z; reflexivity. Qed.

(** The clamp of a [float] product, case by case. *)
Lemma clamp_float_cases : forall x : float,
  py_max (PyInt TEMPERATURE_MIN) (py_min (PyFloat x) (PyInt TEMPERATURE_MAX))
  = if PrimFloat.ltb 150 x then PyInt 150
    else if PrimFloat.ltb (-30) x then PyFloat x
    else PyInt (-30).
Proof.
  intros x. unfold py_min, py_max, py_lt. cbn [py_int py_float].
  change (float_of_Z TEMPERATURE_MAX) with 150%float.
  destruct (PrimFloat.ltb 150 x); [reflexivity|].
  cbn [py_int py_float].
  change (float_of_Z TEMPERATURE_MIN) with (-30)%float.
  reflexivity.
Qed.

(** Where the product of a sixteen-bit temperature falls: above 150 exactly
    when the signed value exceeds 18000, above -30 exactly when it is
    positive. *)
Lemma temperature_product_thresholds : forall raw,
  (0 <= raw < 65536)%Z ->
  let value := if (32767 <? raw)%Z then (raw - 65536)%Z else raw in
  let product := PrimFloat.mul (float_of_Z (value + -3000)) 0.01 in
  PrimFloat.ltb 150 product = (18000 <? value)%Z
  /\ PrimFloat.ltb (-30) product = (0 <? value)%Z.
Proof.
  intros raw Hraw.
  assert (H : all_from
            (fun raw =>
               let value := if (32767 <? raw)%Z then (raw - 65536)%Z else raw in
               let product := PrimFloat.mul (float_of_Z (value + -3000)) 0.01 in
               Bool.eqb (PrimFloat.ltb 150 product) (18000 <? value)%Z
               && Bool.eqb (PrimFloat.ltb (-30) product) (0 <? value)%Z)
            (Z.to_nat 65536) 0 = true) by (vm_compute; reflexivity).
  pose proof (all_from_spec _ _ _ H raw) as Hx. cbv beta zeta in Hx.
  cbv zeta.
  assert (Hin : (0 <= raw < 0 + Z.of_nat (Z.to_nat 65536))%Z)
    by (rewrite Z2Nat.id; lia).
  apply Hx in Hin. apply andb_prop in Hin as [H1 H2].
  split; now apply Bool.eqb_prop.
Qed.

(** The clamped product in the kernel's own terms. *)
Lemma temperature_value_absolute : forall raw,
  let value := if (32767 <? raw)%Z then (raw - 65536)%Z else raw in
  let sum := (value + -3000)%Z in
  let product :=
    PrimFloat.mul
      (if (sum <? 0)%Z
       then PrimFloat.opp (PrimFloat.of_uint63 (Uint63.of_Z (- sum)))
       else PrimFloat.of_uint63 (Uint63.of_Z sum))
      0.01 in
  temperature_value raw
  = if PrimFloat.ltb 150 product then PyInt 150
    else if PrimFloat.ltb (-30) product then PyFloat product
    else PyInt (-30).
Proof.
  intros raw value sum product.
  unfold temperature_value. fold value. fold sum.
  unfold py_mul. cbn [py_int py_float].
  rewrite clamp_float_cases, float_of_Z_signed. reflexivity.
Qed.

(** C3.  For a raw sixteen-bit value at an address whose mapping has device
    class temperature, the reading stored under the mapping's name is
    computed as follows: a raw value above 32767 is first replaced by the
    value minus 65536; the offset -3000 is added; the sum, converted to a
    binary64 float, is multiplied by the scale 0.01; and the product is
    clamped to the interval from -30 to 150: a product above 150 becomes the
    integer 150, a product above -30 and not above 150 is kept as it is, and
    any other product becomes the integer -30.  The offset and the scale are
    those of the mapping, the bounds are [TEMPERATURE_MIN] and
    [TEMPERATURE_MAX], and the value so described is the one [py_max],
    [py_min] and [py_mul] compute.  In terms of the signed value: the
    reading is 150 exactly when the value exceeds 18000, and -30 exactly
    when the value is not positive.  The raw values 0xFFFF and 0x8000 yield
    -30, 3020 yields 0.2, 5123 yields 21.23, 18000 yields 150.0 and 25000
    yields 150. *)
Theorem temperature_reading_signed_offset_clamped :
  forall (start_register : Z) (values : list Z) (i : nat) (raw : Z)
         (mapping : Mapping),
  nth_error values i = Some raw ->
  (0 <= raw < 65536)%Z ->
  dict_get Z.eqb (start_register + Z.of_nat i)%Z register_mappings
  = Some mapping ->
  is_temperature mapping = true ->
  let value := if (32767 <? raw)%Z then (raw - 65536)%Z else raw in
  let sum := (value + -3000)%Z in
  let product :=
    PrimFloat.mul
      (if (sum <? 0)%Z
       then PrimFloat.opp (PrimFloat.of_uint63 (Uint63.of_Z (- sum)))
       else PrimFloat.of_uint63 (Uint63.of_Z sum))
      0.01 in
  let clamped :=
    if PrimFloat.ltb 150 product then PyInt 150
    else if PrimFloat.ltb (-30) product then PyFloat product
    else PyInt (-30) in
  dict_get String.eqb (map_name mapping)
           (parse_read_response start_register values)
  = Some (mkReading clamped (map_unit mapping) (map_device_class mapping)
                    (RegAddr (start_register + Z.of_nat i)) value)
  /\ map_offset mapping = (-3000)%Z
  /\ map_scale mapping = PyFloat 0.01
  /\ TEMPERATURE_MIN = (-30)%Z
  /\ TEMPERATURE_MAX = 150%Z
  /\ clamped
     = py_max (PyInt TEMPERATURE_MIN)
              (py_min (py_mul (PyInt (value + map_offset mapping))
                              (map_scale mapping))
                      (PyInt TEMPERATURE_MAX))
  /\ PrimFloat.ltb 150 product = (18000 <? value)%Z
  /\ PrimFloat.ltb (-30) product = (0 <? value)%Z
  /\ py_le (PyInt TEMPERATURE_MIN) clamped = true
  /\ py_le clamped (PyInt TEMPERATURE_MAX) = true
  /\ (raw = 0xFFFF%Z -> value = (-1)%Z /\ clamped = PyInt (-30))
  /\ (raw = 0x8000%Z -> value = (-32768)%Z /\ clamped = PyInt (-30))
  /\ (raw = 3020%Z -> clamped = PyFloat 0.2)
  /\ (raw = 5123%Z -> clamped = PyFloat 21.23)
  /\ (raw = 18000%Z -> clamped = PyFloat 150)
  /\ (raw = 25000%Z -> clamped = PyInt 150).
Proof.
  intros start_register values i raw mapping Hnth Hraw Hget Htemp
         value sum product clamped.
  destruct (temperature_mapping _ _ raw Hget Htemp) as (Hoff & Hscale & Hassign).
  assert (Hvalue : signed_value mapping raw = value).
  { unfold signed_value. now rewrite Htemp. }
  assert (Htv : clamped = temperature_value raw).
  { symmetry. apply temperature_value_absolute. }
  assert (Hhelpers :
            temperature_value raw
            = py_max (PyInt TEMPERATURE_MIN)
                     (py_min (py_mul (PyInt (value + map_offset mapping))
                                     (map_scale mapping))
                             (PyInt TEMPERATURE_MAX))).
  { unfold temperature_value. fold value. now rewrite Hoff, Hscale. }
  assert (Hscaled : scaled_value mapping value = clamped).
  { unfold scaled_value. rewrite Htemp, Htv. symmetry. exact Hhelpers. }
  destruct (temperature_product_thresholds raw Hraw) as [Hhigh Hlow].
  cbv zeta in Hhigh, Hlow. rewrite float_of_Z_signed in Hhigh, Hlow.
  split_all.
  - rewrite (parse_read_response_get start_register values i raw); trivial.
    + rewrite Hassign, Hvalue, Hscaled. simpl.
      now rewrite String.eqb_refl.
    + rewrite <- (keys_written_assignments _ raw), Hassign. now left.
  - exact Hoff.
  - exact Hscale.
  - reflexivity.
  - reflexivity.
  - rewrite Htv. exact Hhelpers.
  - exact Hhigh.
  - exact Hlow.
  - rewrite Htv. now apply temperature_value_bounds.
  - rewrite Htv. now apply temperature_value_bounds.
  - intros ->. split; [reflexivity|]. vm_compute. reflexivity.
  - intros ->. split; [reflexivity|]. vm_compute. reflexivity.
  - intros ->. vm_compute. reflexivity.
  - intros ->. vm_compute. reflexivity.
  - intros ->. vm_compute. reflexivity.
  - intros ->. vm_compute. reflexivity.
Qed.

Lemma temperature_reading_signed_offset_clamped_witness :
  dict_get String.eqb "Outside Temperature"%string
           (parse_read_response 2110 [0xFFFF%Z])
  = Some (mkReading (PyInt (-30)) "¬∞C"%string (Some "temperature"%string)
                    (RegAddr 2110) (-1)).
Proof.
  destruct (temperature_reading_signed_offset_clamped
              2110 [0xFFFF%Z] 0 0xFFFF%Z
              (temperature "Outside Temperature"%string)
              eq_refl ltac:(lia) ltac:(by_vm) ltac:(by_vm))
    as (Hget & _).
  exact Hget.
Defined.

(** C8.  When the value decoded at register 2108 is 0x21, the result of
    [parse_read_response] holds, for every entry (bit index, name, bitmask)
    of [r2108_bits], a reading under the key "R2108 " followed by the name:
    its value is whether the raw value and the bitmask share a bit, its unit
    is empty, its device class is "binary_sensor", its register is "2108b"
    followed by the bit index, and its raw value is 0x21.  The value is true
    exactly for bit 0 (Fan Low Speed Mode) and bit 5 (Fan High Speed Mode).
    A response that carries only this register decodes to the reading of
    the register itself followed by these seven readings, in table order. *)
Theorem status_bits_of_0x21 :
  forall (start_register : Z) (values : list Z) (i : nat),
  nth_error values i = Some 0x21%Z ->
  (start_register + Z.of_nat i = 2108)%Z ->
  (forall bit_num bit_info,
      In (bit_num, bit_info) r2108_bits ->
      dict_get String.eqb ("R2108 " ++ bit_name bit_info)%string
               (parse_read_response start_register values)
      = Some (mkReading
                (PyBool (negb (Z.land 0x21 (bit_bitmask bit_info) =? 0)%Z))
                ""%string (Some "binary_sensor"%string)
                (RegBit ("2108b" ++ str_of_Z bit_num)%string) 0x21)
      /\ (negb (Z.land 0x21 (bit_bitmask bit_info) =? 0)%Z = true <->
          (bit_num = 0%Z /\ bit_name bit_info = "Fan Low Speed Mode"%string)
          \/ (bit_num = 5%Z /\ bit_name bit_info = "Fan High Speed Mode"%string)))
  /\ map fst (parse_read_response 2108 [0x21%Z])
     = "Status Bits R2108"%string
       :: map (fun item => ("R2108 " ++ bit_name (snd item))%string) r2108_bits
  /\ map (fun item => rd_value (snd item)) (parse_read_response 2108 [0x21%Z])
     = [PyInt 33; PyBool true; PyBool false; PyBool false; PyBool false;
        PyBool true; PyBool false; PyBool false].
Proof.
  intros start_register values i Hnth Haddr.
  split_all; try by_vm.
  intros bit_num bit_info Hin.
  assert (Hkey : In ("R2108 " ++ bit_name bit_info)%string
                    (keys_written (start_register + Z.of_nat i))).
  { rewrite Haddr. unfold r2108_bits in Hin.
    repeat (destruct Hin as [Hin|Hin];
            [injection Hin as <- <-; vm_compute; tauto|]).
    contradiction. }
  rewrite (parse_read_response_get start_register values i 0x21%Z _ Hnth Hkey).
  rewrite Haddr. unfold r2108_bits in Hin.
  repeat (destruct Hin as [Hin|Hin];
          [injection Hin as <- <-; split; [by_vm|];
           vm_compute; split;
           [intros H; first [discriminate H | tauto]
           |intros [[H _]|[H _]]; first [discriminate H | reflexivity]]|]).
  contradiction.
Qed.

Lemma status_bits_of_0x21_witness :
  dict_get String.eqb "R2108 Fan High Speed Mode"%string
           (parse_read_response 2100 [0; 0; 0; 0; 0; 0; 0; 0; 0x21]%Z)
  = Some (mkReading (PyBool true) ""%string (Some "binary_sensor"%string)
                    (RegBit "2108b5"%string) 0x21)
  /\ dict_get String.eqb "R2108 Pump Relay"%string
           (parse_read_response 2100 [0; 0; 0; 0; 0; 0; 0; 0; 0x21]%Z)
  = Some (mkReading (PyBool false) ""%string (Some "binary_sensor"%string)
                    (RegBit "2108b11"%string) 0x21).
Proof.
  destruct (status_bits_of_0x21
              2100 [0; 0; 0; 0; 0; 0; 0; 0; 0x21]%Z 8 eq_refl eq_refl)
    as (Hbits & _).
  split.
  - apply (Hbits 5%Z (mkBitInfo "Fan High Speed Mode" 0x20)).
    vm_compute. tauto.
  - apply (Hbits 11%Z (mkBitInfo "Pump Relay" 0x800)).
    vm_compute. tauto.
Defined.

(** ** Further properties of the frame extractor *)

Lemma find_seq_before : forall (p : nat -> bool) n a x,
  find p (seq a n) = Some x -> forall y, a <= y < x -> p y = false.
Proof.
  intros p. induction n as [|n IH]; intros a x H y Hy; [discriminate|].
  simpl in H. destruct (p a) eqn:E.
  - injection H as <-. lia.
  - destruct (Nat.eq_dec y a) as [->|Hne]; [exact E|].
    apply (IH (S a) x H). lia.
Qed.

Lemma find_seq_none_all : forall (p : nat -> bool) n a,
  find p (seq a n) = None -> forall y, a <= y < a + n -> p y = false.
Proof.
  intros p n a H y Hy.
  apply (find_none p (seq a n) H). apply in_seq. lia.
Qed.

Lemma scan_lengths_none : forall remaining frame_len,
  scan_lengths remaining = None ->
  MIN_FRAME_SIZE <= frame_len < MAX_FRAME_SIZE ->
  frame_len <= length remaining ->
  verify_crc (firstn frame_len remaining) = false.
Proof.
  intros remaining frame_len H Hl Hfit. unfold scan_lengths in H.
  apply (find_seq_none_all _ _ _ H). unfold frame_len_range. lia.
Qed.

Lemma scan_starts_before : forall buffer n a start_pos frame_len,
  scan_starts buffer (seq a n) = Some (start_pos, frame_len) ->
  forall s, a <= s < start_pos -> scan_lengths (skipn s buffer) = None.
Proof.
  intros buffer. induction n as [|n IH];
    intros a start_pos frame_len H s Hs; [discriminate|].
  simpl in H. destruct (scan_lengths (skipn a buffer)) eqn:E.
  - injection H as <- <-. lia.
  - destruct (Nat.eq_dec s a) as [->|Hne]; [exact E|].
    apply (IH (S a) _ _ H). lia.
Qed.

Lemma scan_starts_none : forall buffer n a,
  scan_starts buffer (seq a n) = None ->
  forall s, a <= s < a + n -> scan_lengths (skipn s buffer) = None.
Proof.
  intros buffer. induction n as [|n IH]; intros a H s Hs; [lia|].
  simpl in H. destruct (scan_lengths (skipn a buffer)) eqn:E; [discriminate|].
  destruct (Nat.eq_dec s a) as [->|Hne]; [exact E|].
  apply (IH (S a) H). lia.
Qed.

(** X1.  [find_frame] is leftmost-shortest and complete: the slice it
    returns passes [verify_crc], every candidate that passes [verify_crc]
    starts later or starts at the same offset and is at least as long, and
    when it returns nothing no candidate passes [verify_crc]. *)
Theorem find_frame_leftmost_shortest : forall buffer : bytes,
  match find_frame buffer with
  | Some (start_pos, frame_len) =>
      candidate buffer start_pos frame_len
      /\ verify_crc (slice buffer start_pos frame_len) = true
      /\ forall s l,
           candidate buffer s l ->
           verify_crc (slice buffer s l) = true ->
           start_pos < s \/ (s = start_pos /\ frame_len <= l)
  | None =>
      forall s l, candidate buffer s l -> verify_crc (slice buffer s l) = false
  end.
Proof.
  intros buffer. unfold candidate, slice.
  destruct (find_frame buffer) as [[start_pos frame_len]|] eqn:E.
  - pose proof (find_frame_some _ _ _ E) as (Hlen & Hfit & Hv).
    split; [now split|]. split; [exact Hv|].
    intros s l [Hl Hs] Hvs. unfold find_frame in E.
    destruct (Nat.lt_trichotomy s start_pos) as [Hlt|[->|Hgt]].
    + exfalso.
      pose proof (scan_starts_before _ _ _ _ _ E s ltac:(lia)) as Hnone.
      rewrite (scan_lengths_none _ l Hnone Hl) in Hvs; [discriminate|].
      rewrite length_skipn. lia.
    + right. split; [reflexivity|].
      apply scan_starts_some in E as [_ El]. unfold scan_lengths in El.
      destruct (Nat.le_gt_cases frame_len l) as [Hle|Hlt]; [exact Hle|].
      exfalso. rewrite (find_seq_before _ _ _ _ El l) in Hvs; [discriminate|].
      lia.
    + now left.
  - intros s l [Hl Hs]. unfold find_frame in E.
    unfold MIN_FRAME_SIZE in Hl.
    pose proof (scan_starts_none _ _ _ E s ltac:(lia)) as Hnone.
    apply (scan_lengths_none _ l Hnone); [exact Hl|].
    rewrite length_skipn. lia.
Qed.

(** One pass of the loop, read from its result. *)
Lemma extract_frames_loop_carves : forall fuel buffer frames rest,
  extract_frames_loop fuel buffer = Some (frames, rest) ->
  exists noise tail,
    length noise = length frames
    /\ buffer = weave noise frames ++ tail ++ rest
    /\ length tail mod BUFFER_CLEANUP_SIZE = 0
    /\ (length buffer <= MAX_BUFFER_SIZE -> tail = []).
Proof.
  induction fuel as [|fuel IH]; intros buffer frames rest H; [discriminate|].
  rewrite extract_frames_loop_S in H.
  destruct (length buffer <? MIN_FRAME_SIZE).
  { injection H as <- <-. exists [], []. now repeat split. }
  destruct (find_frame buffer) as [[start_pos frame_len]|] eqn:Efind.
  - destruct (extract_frames_loop fuel (skipn (start_pos + frame_len) buffer))
      as [[frames' rest']|] eqn:Erun; [|discriminate].
    injection H as <- <-.
    destruct (IH _ _ _ Erun) as (noise & tail & Hlen & Hbuf & Hmod & Hsmall).
    exists (firstn start_pos buffer :: noise), tail.
    split; [simpl; now rewrite Hlen|]. split; [|split; [exact Hmod|]].
    + cbn [weave]. rewrite <- !app_assoc, <- Hbuf.
      rewrite (Nat.add_comm start_pos frame_len), <- skipn_skipn.
      now rewrite !firstn_skipn.
    + intros Hle. apply Hsmall. rewrite length_skipn. lia.
  - destruct (MAX_BUFFER_SIZE <? length buffer) eqn:Ebig.
    + apply Nat.ltb_lt in Ebig.
      destruct (IH _ _ _ H) as (noise & tail & Hlen & Hbuf & Hmod & _).
      assert (Hchunk : length (firstn BUFFER_CLEANUP_SIZE buffer)
                       = BUFFER_CLEANUP_SIZE).
      { rewrite length_firstn. unfold BUFFER_CLEANUP_SIZE, MAX_BUFFER_SIZE in *.
        lia. }
      destruct noise as [|skipped noise], frames as [|frame frames];
        try discriminate Hlen.
      * exists [], (firstn BUFFER_CLEANUP_SIZE buffer ++ tail).
        split; [reflexivity|]. cbn [weave app] in Hbuf |- *. split; [|split].
        -- rewrite <- app_assoc, <- Hbuf. now rewrite firstn_skipn.
        -- rewrite length_app, Hchunk.
           rewrite Nat.Div0.add_mod, Hmod, Nat.Div0.mod_same. reflexivity.
        -- intros Hle. lia.
      * exists ((firstn BUFFER_CLEANUP_SIZE buffer ++ skipped) :: noise), tail.
        split; [exact Hlen|]. split; [|split; [exact Hmod|intros Hle; lia]].
        cbn [weave] in Hbuf |- *. rewrite <- !app_assoc.
        rewrite <- !app_assoc in Hbuf. rewrite <- Hbuf.
        now rewrite firstn_skipn.
    + apply Nat.ltb_ge in Ebig. injection H as <- <-.
      exists [], []. now repeat split.
Qed.

(** X2.  [extract_frames] only cuts the buffer up: the buffer is, in order,
    a stretch of skipped bytes before each frame handed on, then the chunks
    of [BUFFER_CLEANUP_SIZE] bytes dropped for want of a frame, then the
    buffer returned.  When the buffer has at most [MAX_BUFFER_SIZE] bytes
    nothing is dropped after the last frame. *)
Theorem extract_frames_cuts_buffer : forall buffer : bytes,
  exists noise tail,
    length noise = length (fst (extract_frames buffer))
    /\ buffer = weave noise (fst (extract_frames buffer))
                ++ tail ++ snd (extract_frames buffer)
    /\ length tail mod BUFFER_CLEANUP_SIZE = 0
    /\ (length buffer <= MAX_BUFFER_SIZE -> tail = []).
Proof.
  intros buffer. pose proof (extract_frames_run buffer) as H.
  destruct (extract_frames buffer) as [frames rest].
  exact (extract_frames_loop_carves _ _ _ _ H).
Qed.

(** X3.  Calling [extract_frames] again on the buffer it returned, with no
    new bytes, hands on no frame and returns the same buffer. *)
Theorem extract_frames_idempotent : forall buffer : bytes,
  extract_frames (snd (extract_frames buffer))
  = ([], snd (extract_frames buffer)).
Proof.
  intros buffer.
  destruct (extract_frames_loop_total (extract_frames_fuel buffer) buffer)
    as (frames & rest & H & _ & Hexit & _).
  { unfold extract_frames_fuel. lia. }
  rewrite extract_frames_run in H. injection H as H. rewrite H. simpl.
  assert (Hrun : extract_frames_loop (extract_frames_fuel rest) rest
                 = Some ([], rest)).
  { unfold extract_frames_fuel. rewrite extract_frames_loop_S.
    destruct Hexit as [Hshort|[Hnone Hle]].
    - apply Nat.ltb_lt in Hshort. now rewrite Hshort.
    - rewrite Hnone. destruct (length rest <? MIN_FRAME_SIZE); [reflexivity|].
      replace (MAX_BUFFER_SIZE <? length rest) with false; [reflexivity|].
      symmetry. now apply Nat.ltb_ge. }
  rewrite extract_frames_run in Hrun. now injection Hrun.
Qed.

(** ** Further properties of the CRC16 engine *)

Module CrcAlgebra.

(** [Crc.bit_step] can be undone on sixteen-bit registers. *)
Lemma bit_unstep_step : forall crc,
  (crc < 65536)%N -> bit_unstep (Crc.bit_step crc) = crc.
Proof.
  intros crc H.
  assert (Hall : all_from
            (fun z => N.eqb (bit_unstep (Crc.bit_step (Z.to_N z))) (Z.to_N z))
            (Z.to_nat 65536) 0 = true) by (vm_compute; reflexivity).
  pose proof (all_from_spec _ _ _ Hall (Z.of_N crc)) as Hx. cbv beta in Hx.
  rewrite N2Z.id in Hx. apply N.eqb_eq. apply Hx.
  rewrite Z2Nat.id; lia.
Qed.

Lemma bit_step_inj : forall a b,
  (a < 65536)%N -> (b < 65536)%N ->
  Crc.bit_step a = Crc.bit_step b -> a = b.
Proof.
  intros a b Ha Hb H.
  rewrite <- (bit_unstep_step a Ha), <- (bit_unstep_step b Hb). now rewrite H.
Qed.

Lemma iter_bit_step_inj : forall n a b,
  (a < 65536)%N -> (b < 65536)%N ->
  Nat.iter n Crc.bit_step a = Nat.iter n Crc.bit_step b -> a = b.
Proof.
  induction n as [|n IH]; intros a b Ha Hb H; [exact H|].
  rewrite !Nat.iter_succ_r in H.
  apply bit_step_inj; try assumption.
  apply IH; try assumption; now apply CrcFacts.bit_step_below.
Qed.

Lemma lxor_byte_below : forall crc b,
  (crc < 65536)%N -> (N.lxor crc (Byte.to_N b) < 65536)%N.
Proof.
  intros crc b H. apply (CrcFacts.lxor_below _ _ 16); [exact H|].
  pose proof (Byte.to_N_bounded b). change (2 ^ 16)%N with 65536%N. lia.
Qed.

(** Two registers that differ still differ after the same byte. *)
Lemma byte_step_inj_register : forall a b x,
  (a < 65536)%N -> (b < 65536)%N ->
  Crc.byte_step a x = Crc.byte_step b x -> a = b.
Proof.
  intros a b x Ha Hb H. unfold Crc.byte_step in H.
  apply iter_bit_step_inj in H; try now apply lxor_byte_below.
  apply (f_equal (fun v => N.lxor v (Byte.to_N x))) in H.
  now rewrite !N.lxor_assoc, !N.lxor_nilpotent, !N.lxor_0_r in H.
Qed.

Lemma to_N_inj : forall x y : byte, Byte.to_N x = Byte.to_N y -> x = y.
Proof.
  intros x y H. pose proof (Byte.of_to_N x) as Hx.
  rewrite H, Byte.of_to_N in Hx. now injection Hx.
Qed.

(** Two different bytes take the same register to different registers. *)
Lemma byte_step_inj_byte : forall crc x y,
  (crc < 65536)%N ->
  Crc.byte_step crc x = Crc.byte_step crc y -> x = y.
Proof.
  intros crc x y Hc H. unfold Crc.byte_step in H.
  apply iter_bit_step_inj in H; try now apply lxor_byte_below.
  apply to_N_inj.
  apply (f_equal (N.lxor crc)) in H.
  now rewrite <- !N.lxor_assoc, !N.lxor_nilpotent, !N.lxor_0_l in H.
Qed.

Lemma fold_byte_step_below : forall data crc,
  (crc < 65536)%N -> (fold_left Crc.byte_step data crc < 65536)%N.
Proof.
  induction data as [|b data IH]; intros crc H; simpl; [exact H|].
  apply IH. now apply CrcFacts.byte_step_below.
Qed.

Lemma fold_byte_step_inj : forall data a b,
  (a < 65536)%N -> (b < 65536)%N ->
  fold_left Crc.byte_step data a = fold_left Crc.byte_step data b -> a = b.
Proof.
  induction data as [|x data IH]; intros a b Ha Hb H; [exact H|].
  simpl in H. apply IH in H; try now apply CrcFacts.byte_step_below.
  now apply byte_step_inj_register in H.
Qed.

(** Data that differs in one byte has a different register. *)
Lemma register_one_byte : forall before after x y,
  Crc.register (before ++ x :: after) = Crc.register (before ++ y :: after) ->
  x = y.
Proof.
  intros before after x y H. unfold Crc.register in H.
  rewrite !fold_left_app in H. simpl in H.
  assert (Hc : (fold_left Crc.byte_step before MODBUS_CRC_INIT < 65536)%N).
  { apply fold_byte_step_below. unfold MODBUS_CRC_INIT. lia. }
  apply fold_byte_step_inj in H; try now apply CrcFacts.byte_step_below.
  now apply byte_step_inj_byte in H.
Qed.

Lemma calculate_crc_inj : forall d d',
  calculate_crc d = calculate_crc d' -> Crc.register d = Crc.register d'.
Proof.
  intros d d' H.
  destruct (CrcFacts.calculate_crc_little_endian d) as (lo & hi & E & Hr).
  destruct (CrcFacts.calculate_crc_little_endian d') as (lo' & hi' & E' & Hr').
  rewrite E, E' in H. injection H as -> ->. congruence.
Qed.

(** Feeding a register its own two bytes, low byte first, empties it. *)
Lemma byte_step_own_bytes : forall crc,
  (crc < 65536)%N ->
  Crc.byte_step (Crc.byte_step crc (byte_of_N crc))
                (byte_of_N (N.shiftr crc 8)) = 0%N.
Proof.
  intros crc H.
  assert (Hall : all_from
            (fun z => N.eqb (Crc.byte_step
                               (Crc.byte_step (Z.to_N z) (byte_of_N (Z.to_N z)))
                               (byte_of_N (N.shiftr (Z.to_N z) 8))) 0)
            (Z.to_nat 65536) 0 = true) by (vm_compute; reflexivity).
  pose proof (all_from_spec _ _ _ Hall (Z.of_N crc)) as Hx. cbv beta in Hx.
  rewrite N2Z.id in Hx. apply N.eqb_eq. apply Hx.
  rewrite Z2Nat.id; lia.
Qed.

Lemma register_with_checksum : forall d,
  Crc.register (d ++ calculate_crc d) = 0%N.
Proof.
  intros d. unfold Crc.register, calculate_crc.
  rewrite fold_left_app. simpl.
  apply byte_step_own_bytes. apply CrcFacts.register_bound.
Qed.

End CrcAlgebra.

Lemma verify_crc_split : forall frame,
  verify_crc frame = true ->
  frame = slice_to_minus2 frame ++ calculate_crc (slice_to_minus2 frame)
  /\ 2 <= length (slice_to_minus2 frame).
Proof.
  intros frame H. apply verify_crc_iff in H as [Hlen Hcrc].
  split.
  - rewrite Hcrc. symmetry. apply slices_minus2.
  - unfold slice_to_minus2. rewrite length_firstn.
    unfold MIN_FRAME_SIZE in Hlen. lia.
Qed.

Lemma nth_error_self : forall (frame : bytes) k old,
  nth_error frame k = Some old ->
  frame = firstn k frame ++ old :: skipn (S k) frame.
Proof.
  induction frame as [|b frame IH]; intros k old H; destruct k;
    simpl in *; try discriminate.
  - now injection H as ->.
  - f_equal. now apply IH.
Qed.

(** X4.  A frame that passes [verify_crc] has CRC register zero over all its
    bytes, checksum included; so the frame followed by two zero bytes passes
    [verify_crc] again, and a frame that passes can be the proper prefix of
    another frame that passes. *)
Theorem verify_crc_zero_residue : forall frame : bytes,
  verify_crc frame = true ->
  Crc.register frame = 0%N
  /\ calculate_crc frame = [x00; x00]
  /\ verify_crc (frame ++ [x00; x00]) = true.
Proof.
  intros frame H.
  pose proof (verify_crc_length _ H) as Hlen.
  destruct (verify_crc_split _ H) as [Hsplit _].
  assert (Hzero : Crc.register frame = 0%N).
  { rewrite Hsplit. apply CrcAlgebra.register_with_checksum. }
  assert (Hcrc : calculate_crc frame = [x00; x00]).
  { unfold calculate_crc. now rewrite Hzero. }
  split_all; try assumption.
  rewrite <- Hcrc.
  apply verify_crc_iff. split.
  - rewrite length_app. simpl. lia.
  - now rewrite slice_to_minus2_app, slice_from_minus2_app.
Qed.

Lemma verify_crc_zero_residue_witness :
  Crc.register Samples.request = 0%N
  /\ calculate_crc Samples.request = [x00; x00]
  /\ verify_crc (Samples.request ++ [x00; x00]) = true.
Proof.
  apply (verify_crc_zero_residue Samples.request). by_vm.
Defined.

(** X5.  [verify_crc] detects every corruption confined to one byte: a frame
    that passes no longer passes once any one of its bytes, data or
    checksum, is replaced by a different byte. *)
Theorem verify_crc_detects_corrupt_byte :
  forall (frame : bytes) (k : nat) (old new : byte),
  verify_crc frame = true ->
  nth_error frame k = Some old ->
  new <> old ->
  verify_crc (corrupt frame k new) = false.
Proof.
  intros frame k old new Hv Hnth Hne.
  destruct (verify_crc_split _ Hv) as [Hsplit Hdata].
  set (d := slice_to_minus2 frame) in *.
  destruct (verify_crc (corrupt frame k new)) eqn:E; [|reflexivity].
  exfalso. apply Hne.
  assert (Hk : k < length frame) by (apply nth_error_Some; congruence).
  pose proof (nth_error_self frame k old Hnth) as Hold.
  apply verify_crc_iff in E as [_ E]. unfold corrupt in E.
  assert (Hflen : length frame = length d + 2).
  { rewrite Hsplit at 1. now rewrite length_app, calculate_crc_length. }
  destruct (Nat.lt_ge_cases k (length d)) as [Hin|Hout].
  - (* a data byte *)
    assert (Hpre : firstn k frame = firstn k d).
    { rewrite Hsplit. rewrite firstn_app.
      replace (k - length d) with 0 by lia. simpl. apply app_nil_r. }
    assert (Hpost : skipn (S k) frame = skipn (S k) d ++ calculate_crc d).
    { rewrite Hsplit at 1. rewrite skipn_app.
      replace (S k - length d) with 0 by lia. reflexivity. }
    rewrite Hpre, Hpost in E.
    change (firstn k d ++ new :: skipn (S k) d ++ calculate_crc d)
      with (firstn k d ++ (new :: skipn (S k) d) ++ calculate_crc d) in E.
    rewrite app_assoc in E.
    rewrite slice_to_minus2_app, slice_from_minus2_app in E by reflexivity.
    apply CrcAlgebra.calculate_crc_inj in E.
    assert (Hd : d = firstn k d ++ old :: skipn (S k) d).
    { rewrite Hpre, Hpost in Hold. rewrite Hsplit in Hold at 1.
      change (firstn k d ++ old :: skipn (S k) d ++ calculate_crc d)
        with (firstn k d ++ (old :: skipn (S k) d) ++ calculate_crc d) in Hold.
      rewrite app_assoc in Hold. now apply app_inv_tail in Hold. }
    assert (E' : Crc.register (firstn k d ++ new :: skipn (S k) d)
                 = Crc.register (firstn k d ++ old :: skipn (S k) d))
      by (rewrite <- Hd; exact E).
    now apply CrcAlgebra.register_one_byte in E'.
  - (* a checksum byte *)
    assert (Hc : length (calculate_crc d) = 2) by apply calculate_crc_length.
    set (c := calculate_crc d) in *.
    set (j := k - length d).
    assert (Hpre : firstn k frame = d ++ firstn j c).
    { rewrite Hsplit at 1. rewrite firstn_app. f_equal.
      apply firstn_all2. lia. }
    assert (Hpost : skipn (S k) frame = skipn (S j) c).
    { rewrite Hsplit at 1. rewrite skipn_app.
      rewrite skipn_all2 by lia.
      replace (S k - length d) with (S j) by (unfold j; lia). reflexivity. }
    rewrite Hpre, Hpost, <- app_assoc in E.
    rewrite Hpre, Hpost, <- app_assoc in Hold.
    assert (Htail : forall b, length (firstn j c ++ b :: skipn (S j) c) = 2).
    { intros b. rewrite length_app, length_firstn. cbn [length].
      rewrite length_skipn, Hc. unfold j. lia. }
    rewrite slice_to_minus2_app, slice_from_minus2_app in E by apply Htail.
    rewrite Hsplit in Hold at 1. apply app_inv_head in Hold.
    fold c in E. rewrite Hold in E at 1.
    apply app_inv_head in E. now injection E.
Qed.

Lemma verify_crc_detects_corrupt_byte_witness :
  verify_crc (corrupt Samples.request 3 x35) = false
  /\ verify_crc (corrupt Samples.request 7 x00) = false.
Proof.
  split.
  - apply (verify_crc_detects_corrupt_byte Samples.request 3 x34 x35);
      [by_vm|reflexivity|discriminate].
  - apply (verify_crc_detects_corrupt_byte Samples.request 7 xa5 x00);
      [by_vm|by_vm|discriminate].
Defined.

(** ** Further properties of frame processing *)

Lemma publish_readings_counters : forall device_id parsed_data self,
  let r := publish_readings self device_id parsed_data in
  stats (fst r)
  = fold_left (fun s t => bump t s)
              (repeat st_mqtt_publishes (length parsed_data)) (stats self)
  /\ slave_stats (fst r)
     = fold_left (fun tab t => bump_slave device_id t tab)
                 (repeat st_mqtt_publishes (length parsed_data))
                 (slave_stats self)
  /\ discovered_slaves (fst r) = discovered_slaves self
  /\ Forall (fun e => is_sensor_publication e = true) (snd r).
Proof.
  intros device_id parsed_data self. unfold publish_readings.
  set (step := fun (acc : Sniffer * list Event) (item : string * Reading) => _).
  assert (G : forall items acc,
             Forall (fun e => is_sensor_publication e = true) (snd acc) ->
             let r := fold_left step items acc in
             stats (fst r)
             = fold_left (fun s t => bump t s)
                 (repeat st_mqtt_publishes (length items)) (stats (fst acc))
             /\ slave_stats (fst r)
                = fold_left (fun tab t => bump_slave device_id t tab)
                    (repeat st_mqtt_publishes (length items))
                    (slave_stats (fst acc))
             /\ discovered_slaves (fst r) = discovered_slaves (fst acc)
             /\ Forall (fun e => is_sensor_publication e = true) (snd r)).
  { induction items as [|[name data] items IH]; intros [s evs] Hev.
    - simpl. now repeat split.
    - cbn [fold_left length repeat].
      specialize (IH (step (s, evs) (name, data))).
      unfold step at 2 3 4 5 6 in IH. cbn [fst snd] in IH.
      apply IH. apply Forall_app. split; [exact Hev|].
      constructor; [|constructor].
      destruct (rd_device_class data) as [c|]; [|reflexivity].
      now destruct (String.eqb c "binary_sensor"). }
  apply (G parsed_data (self, [])). constructor.
Qed.

Lemma handle_sensor_data_counters :
  forall self response_frame request_frame device_id response_time,
  let r := handle_sensor_data self response_frame request_frame device_id
                              response_time in
  exists published,
    stats (fst r)
    = fold_left (fun s t => bump t s)
                (repeat st_mqtt_publishes published) (stats self)
    /\ slave_stats (fst r)
       = fold_left (fun tab t => bump_slave device_id t tab)
                   (repeat st_mqtt_publishes published) (slave_stats self)
    /\ Forall (fun e => is_sensor_publication e = true \/ e = SetupSlave device_id)
              (snd r)
    /\ (decodes self response_frame request_frame = false ->
        fst r = self /\ snd r = [] /\ published = 0).
Proof.
  intros self response_frame request_frame device_id response_time.
  unfold handle_sensor_data, decodes.
  destruct request_frame as [request|];
    [|exists 0; now repeat split].
  destruct (mqtt self) eqn:Em; [|exists 0; now repeat split].
  destruct (length request =? 0) eqn:El; [exists 0; now repeat split|].
  destruct (existsb (N.eqb (Byte.to_N (nth 1 response_frame x00))) [3%N; 4%N])
    eqn:Efc; [|exists 0; now repeat split].
  cbn [negb orb andb].
  destruct (skipn 2 request) as [|hi [|lo rest]] eqn:Eskip;
    try (exists 0; now repeat split).
  cbn [firstn].
  unfold setup_ha_sensors_for_slave. rewrite Em. cbn [negb orb].
  set (parsed := parse_read_response (unpack_be_H hi lo)
                                     (response_values response_frame)).
  destruct (existsb (Byte.eqb device_id) (discovered_slaves self)).
  - pose proof (publish_readings_counters device_id parsed self)
      as (Hs & Ht & _ & Hev).
    destruct (publish_readings self device_id parsed) as [self2 ev_data].
    cbn [fst snd] in *. exists (length parsed).
    split; [exact Hs|]. split; [exact Ht|]. split.
    + repeat (apply Forall_app; split);
        [constructor
        |eapply Forall_impl; [|exact Hev]; intros e He; now left
        |constructor; [now left|constructor]].
    + cbn [length Nat.leb]. discriminate.
  - pose proof (publish_readings_counters device_id parsed
                  (with_discovered (fun s => s ++ [device_id]) self))
      as (Hs & Ht & _ & Hev).
    destruct (publish_readings _ device_id parsed) as [self2 ev_data].
    cbn [fst snd] in *. exists (length parsed).
    split; [exact Hs|]. split; [exact Ht|]. split.
    + repeat (apply Forall_app; split);
        [constructor; [now right|constructor]
        |eapply Forall_impl; [|exact Hev]; intros e He; now left
        |constructor; [now left|constructor]].
    + cbn [length Nat.leb]. discriminate.
Qed.

Lemma slave_stats_update : forall self slave_id stat_type,
  slave_stats (update_slave_stats self slave_id stat_type)
  = bump_slave slave_id stat_type (slave_stats self).
Proof. reflexivity. Qed.

Lemma publish_stats_events : forall self,
  Forall (fun e => is_sensor_publication e = false
                   /\ (is_publication e = true -> mqtt self = true))
         (publish_stats self).
Proof.
  intros self. unfold publish_stats. destruct (mqtt self); simpl.
  - constructor; [now split|constructor].
  - constructor.
Qed.

Lemma decodes_mqtt : forall s s' response_frame request_frame,
  mqtt s = mqtt s' ->
  decodes s response_frame request_frame
  = decodes s' response_frame request_frame.
Proof.
  intros s s' response_frame request_frame H. unfold decodes.
  destruct request_frame; [now rewrite H|reflexivity].
Qed.

(** Unfolds the record updates of the sniffer state but not the counters. *)
Ltac state_proj :=
  cbn [fst snd with_stats with_pending with_discovered
       stats mqtt pending_requests slave_stats discovered_slaves] in *.

Lemma update_slave_stats_fields : forall self slave_id stat_type,
  stats (update_slave_stats self slave_id stat_type) = stats self
  /\ mqtt (update_slave_stats self slave_id stat_type) = mqtt self
  /\ discovered_slaves (update_slave_stats self slave_id stat_type)
     = discovered_slaves self
  /\ pending_requests (update_slave_stats self slave_id stat_type)
     = pending_requests self.
Proof. intros. repeat split. Qed.

(** The events of the last step of [process_frame]. *)
Lemma process_frame_tail_events : forall (self s : Sniffer) events (cond : bool),
  mqtt s = mqtt self ->
  Forall (fun e => is_sensor_publication e = false
                   /\ (is_publication e = true -> mqtt self = true))
         (snd (if cond then (s, events ++ publish_stats s) else (s, events)))
  <-> Forall (fun e => is_sensor_publication e = false
                       /\ (is_publication e = true -> mqtt self = true))
             events.
Proof.
  intros self s events cond Hm. destruct cond; cbn [snd]; [|tauto].
  rewrite Forall_app. split; [tauto|]. intros H. split; [exact H|].
  rewrite <- Hm. apply publish_stats_events.
Qed.

Lemma process_frame_tail_state : forall (s : Sniffer) events (cond : bool),
  fst (if cond then (s, events ++ publish_stats s) else (s, events)) = s.
Proof. intros s events cond. now destruct cond. Qed.

(** The counters and the events of one call of [process_frame] on a frame of
    [MIN_FRAME_SIZE] bytes or more. *)
Lemma process_frame_counters : forall self frame_data current_time,
  MIN_FRAME_SIZE <= length frame_data ->
  let device_id := nth 0 frame_data x00 in
  let is_request := is_modbus_request (nth 1 frame_data x00) frame_data in
  let matched :=
    snd (correlate (pending_requests self) device_id current_time) in
  let after := fst (process_frame self frame_data current_time) in
  let events := snd (process_frame self frame_data current_time) in
  exists published,
    stats after
    = fold_left (fun s t => bump t s) (bumps_of is_request published)
                (bump st_total_frames (stats self))
    /\ slave_stats after
       = fold_left (fun tab t => bump_slave device_id t tab)
                   (bumps_of is_request published) (slave_stats self)
    /\ Forall (fun e => is_publication e = true -> mqtt self = true) events
    /\ (is_request = true \/ decodes self frame_data matched = false ->
        published = 0
        /\ Forall (fun e => is_sensor_publication e = false) events
        /\ discovered_slaves after = discovered_slaves self).
Proof.
  intros self frame_data current_time Hlen device_id is_request matched.
  unfold process_frame. fold device_id.
  replace (length frame_data <? MIN_FRAME_SIZE) with false
    by (symmetry; now apply Nat.ltb_ge).
  fold is_request. destruct is_request eqn:Ereq.
  - exists 0.
    match goal with
    | |- context [if ?c then (?s, ?ev ++ publish_stats ?s) else (?s, ?ev)] =>
        pose proof (process_frame_tail_events self s ev c eq_refl) as Hev;
        rewrite (process_frame_tail_state s ev c);
        set (events := snd (if c then (s, ev ++ publish_stats s) else (s, ev)))
          in *
    end.
    assert (Hall : Forall (fun e => is_sensor_publication e = false
                       /\ (is_publication e = true -> mqtt self = true)) events).
    { apply Hev. constructor; [split; [reflexivity|discriminate]|constructor]. }
    split; [reflexivity|]. split; [reflexivity|]. split.
    + eapply Forall_impl; [|exact Hall]. now intros e [_ H].
    + intros _. split; [reflexivity|]. split; [|reflexivity].
      eapply Forall_impl; [|exact Hall]. now intros e [H _].
  - set (s0 := update_slave_stats
                 (with_stats (bump st_responses)
                             (with_stats (bump st_total_frames) self))
                 device_id st_responses).
    assert (Hcase : exists s1 rt,
              (let '(self, response_time_ms, request_frame) :=
                 match dict_get Byte.eqb device_id (pending_requests s0) with
                 | Some pending =>
                     (with_pending (dict_del Byte.eqb device_id) s0,
                      py_mul (PyFloat (PrimFloat.sub current_time (pr_time pending)))
                             (PyInt 1000),
                      Some (pr_frame pending))
                 | None => (s0, PyInt 0, None)
                 end in
               let (self, ev_sensor) :=
                 handle_sensor_data self frame_data request_frame device_id
                                    response_time_ms in
               (self, LogResponse device_id response_time_ms request_frame
                        :: ev_sensor))
              = (fst (handle_sensor_data s1 frame_data matched device_id rt),
                 LogResponse device_id rt matched
                   :: snd (handle_sensor_data s1 frame_data matched device_id rt))
              /\ mqtt s1 = mqtt self /\ stats s1 = stats s0
              /\ slave_stats s1 = slave_stats s0
              /\ discovered_slaves s1 = discovered_slaves self).
    { subst matched. unfold correlate.
      change (pending_requests s0) with (pending_requests self).
      destruct (dict_get Byte.eqb device_id (pending_requests self))
        as [pending|]; cbn [snd].
      - exists (with_pending (dict_del Byte.eqb device_id) s0),
               (py_mul (PyFloat (PrimFloat.sub current_time (pr_time pending)))
                       (PyInt 1000)).
        split; [|now repeat split].
        now destruct (handle_sensor_data _ frame_data _ device_id _).
      - exists s0, (PyInt 0). split; [|now repeat split].
        now destruct (handle_sensor_data _ frame_data _ device_id _). }
    destruct Hcase as (s1 & rt & Hcase & Hm1 & Hst1 & Hsl1 & Hd1).
    fold s0. rewrite Hcase. clear Hcase.
    destruct (handle_sensor_data_counters s1 frame_data matched device_id rt)
      as (published & Hs & Ht & Hsens & Hskip).
    pose proof (handle_sensor_data_keeps s1 frame_data matched device_id rt)
      as [(K1 & _) _].
    destruct (handle_sensor_data s1 frame_data matched device_id rt)
      as [s2 ev_sensor].
    cbn [fst snd] in *. exists published.
    match goal with
    | |- context [if ?c then (?s, ?ev ++ publish_stats ?s) else (?s, ?ev)] =>
        pose proof (process_frame_tail_events self s ev c
                      ltac:(cbn; congruence)) as Hev;
        rewrite (process_frame_tail_state s ev c);
        set (events := snd (if c then (s, ev ++ publish_stats s) else (s, ev)))
          in *
    end.
    split; [|split; [|split]].
    + cbn [stats with_stats update_slave_stats with_slave_stats].
      rewrite Hs, Hst1. unfold bumps_of. cbn [fold_left].
      rewrite fold_left_app. reflexivity.
    + rewrite slave_stats_update. cbn [slave_stats with_stats].
      rewrite Ht, Hsl1. unfold bumps_of. cbn [fold_left].
      rewrite fold_left_app. reflexivity.
    + destruct (mqtt self) eqn:Em; [apply Forall_forall; reflexivity|].
      assert (Hdec : decodes s1 frame_data matched = false).
      { unfold decodes. rewrite Hm1. now destruct matched. }
      destruct (Hskip Hdec) as (_ & Hnil & _). subst ev_sensor.
      assert (Hall : Forall (fun e => is_sensor_publication e = false
                         /\ (is_publication e = true -> false = true)) events).
      { apply Hev. constructor; [split; [reflexivity|discriminate]|constructor]. }
      eapply Forall_impl; [|exact Hall]. now intros e [_ H].
    + intros [Hfalse|Hdec]; [discriminate Hfalse|].
      rewrite (decodes_mqtt self s1) in Hdec by congruence.
      destruct (Hskip Hdec) as (Hself & Hnil & Hzero).
      subst s2 ev_sensor published.
      split; [reflexivity|]. split.
      * assert (Hall : Forall (fun e => is_sensor_publication e = false
                         /\ (is_publication e = true -> mqtt self = true)) events).
        { apply Hev.
          constructor; [split; [reflexivity|discriminate]|constructor]. }
        eapply Forall_impl; [|exact Hall]. now intros e [H _].
      * exact Hd1.
Qed.

(** *** Counters *)

Lemma bump_counter : forall c t s,
  counter_of c (bump t s)
  = (counter_of c s + if stat_type_eqb c t then 1 else 0)%N.
Proof. intros c t s. destruct c, t; simpl; lia. Qed.

Lemma fold_bump_counter : forall c ts s,
  counter_of c (fold_left (fun s t => bump t s) ts s)
  = (counter_of c s + N.of_nat (length (filter (stat_type_eqb c) ts)))%N.
Proof.
  intros c ts. induction ts as [|t ts IH]; intros s; simpl; [lia|].
  rewrite IH, bump_counter. destruct (stat_type_eqb c t); simpl length; lia.
Qed.

(** How often [process_frame] bumps each key. *)
Lemma bumps_of_count : forall c is_request published,
  length (filter (stat_type_eqb c) (bumps_of is_request published))
  = match c with
    | st_requests => if is_request then 1 else 0
    | st_responses => if is_request then 0 else 1
    | st_valid_frames => 1
    | st_mqtt_publishes => published
    | st_total_frames | st_errors => 0
    end.
Proof.
  intros c is_request published. unfold bumps_of.
  assert (Hrep : forall n,
            length (filter (stat_type_eqb c) (repeat st_mqtt_publishes n))
            = if stat_type_eqb c st_mqtt_publishes then n else 0).
  { induction n as [|n IH]; simpl; [now destruct stat_type_eqb|].
    destruct (stat_type_eqb c st_mqtt_publishes); simpl; [now rewrite IH|exact IH]. }
  cbn [filter]. rewrite filter_app.
  destruct c, is_request; cbn [stat_type_eqb filter length];
    rewrite ?length_app, Hrep; cbn [stat_type_eqb length]; lia.
Qed.

Lemma slave_view_bump : forall slave_id stat_type table other,
  slave_view (bump_slave slave_id stat_type table) other
  = if Byte.eqb other slave_id
    then bump stat_type (slave_view table slave_id)
    else slave_view table other.
Proof.
  intros slave_id stat_type table other. unfold slave_view, bump_slave, dict_mem.
  destruct (Byte.eqb other slave_id) eqn:E.
  - apply byte_eqb_eq in E. subst other.
    destruct (dict_get Byte.eqb slave_id table) as [s|] eqn:G.
    + rewrite G. now rewrite (dict_get_set_same Byte.eqb byte_eqb_eq).
    + rewrite (dict_get_set_same Byte.eqb byte_eqb_eq).
      now rewrite (dict_get_set_same Byte.eqb byte_eqb_eq).
  - assert (Hne : other <> slave_id).
    { intros ->. now rewrite (proj2 (byte_eqb_eq _ _) eq_refl) in E. }
    destruct (dict_get Byte.eqb slave_id table) as [s|] eqn:G.
    + rewrite G. now rewrite (dict_get_set_other Byte.eqb byte_eqb_eq).
    + rewrite (dict_get_set_same Byte.eqb byte_eqb_eq).
      now rewrite !(dict_get_set_other Byte.eqb byte_eqb_eq).
Qed.

Lemma fold_slave_view : forall slave_id ts table other,
  slave_view (fold_left (fun tab t => bump_slave slave_id t tab) ts table) other
  = if Byte.eqb other slave_id
    then fold_left (fun s t => bump t s) ts (slave_view table slave_id)
    else slave_view table other.
Proof.
  intros slave_id ts. induction ts as [|t ts IH]; intros table other; simpl.
  - destruct (Byte.eqb other slave_id) eqn:E; [|reflexivity].
    apply byte_eqb_eq in E. now subst.
  - rewrite IH, !slave_view_bump.
    rewrite (proj2 (byte_eqb_eq slave_id slave_id) eq_refl).
    now destruct (Byte.eqb other slave_id).
Qed.

Lemma slave_sum_set_absent : forall counter slave_id (v : Stats) table,
  dict_get Byte.eqb slave_id table = None ->
  slave_sum counter (dict_set Byte.eqb slave_id v table)
  = (slave_sum counter table + counter v)%N.
Proof.
  intros counter slave_id v table. induction table as [|[k s] table IH];
    simpl; intros H; [lia|].
  destruct (Byte.eqb slave_id k); [discriminate|]. simpl.
  rewrite IH by exact H. lia.
Qed.

Lemma slave_sum_set_present : forall counter slave_id (v old : Stats) table,
  dict_get Byte.eqb slave_id table = Some old ->
  (slave_sum counter (dict_set Byte.eqb slave_id v table) + counter old
   = slave_sum counter table + counter v)%N.
Proof.
  intros counter slave_id v old table. induction table as [|[k s] table IH];
    simpl; intros H; [discriminate|].
  destruct (Byte.eqb slave_id k).
  - injection H as ->. simpl. lia.
  - simpl. specialize (IH H). lia.
Qed.

Lemma slave_sum_bump : forall c slave_id t table,
  slave_sum (counter_of c) (bump_slave slave_id t table)
  = (slave_sum (counter_of c) table + if stat_type_eqb c t then 1 else 0)%N.
Proof.
  intros c slave_id t table. unfold bump_slave, dict_mem.
  destruct (dict_get Byte.eqb slave_id table) as [s|] eqn:G.
  - rewrite G.
    pose proof (slave_sum_set_present (counter_of c) slave_id (bump t s) s
                  table G) as H.
    rewrite bump_counter in H. lia.
  - rewrite (dict_get_set_same Byte.eqb byte_eqb_eq).
    pose proof (slave_sum_set_present (counter_of c) slave_id
                  (bump t zero_stats) zero_stats
                  (dict_set Byte.eqb slave_id zero_stats table)
                  (dict_get_set_same Byte.eqb byte_eqb_eq _ _ _)) as H.
    rewrite (slave_sum_set_absent _ _ _ _ G), bump_counter in H.
    destruct c; simpl in *; lia.
Qed.

Lemma fold_slave_sum : forall c slave_id ts table,
  slave_sum (counter_of c)
            (fold_left (fun tab t => bump_slave slave_id t tab) ts table)
  = (slave_sum (counter_of c) table
     + N.of_nat (length (filter (stat_type_eqb c) ts)))%N.
Proof.
  intros c slave_id ts. induction ts as [|t ts IH]; intros table; simpl; [lia|].
  rewrite IH, slave_sum_bump. destruct (stat_type_eqb c t); simpl length; lia.
Qed.

Lemma bump_slave_nodup : forall slave_id t table,
  NoDup (dict_keys table) -> NoDup (dict_keys (bump_slave slave_id t table)).
Proof.
  intros slave_id t table H. unfold bump_slave.
  destruct (dict_mem Byte.eqb slave_id table).
  - destruct (dict_get Byte.eqb slave_id table); [|exact H].
    now apply (dict_keys_set_nodup Byte.eqb byte_eqb_eq).
  - rewrite (dict_get_set_same Byte.eqb byte_eqb_eq).
    now do 2 apply (dict_keys_set_nodup Byte.eqb byte_eqb_eq).
Qed.

Lemma fold_bump_slave_nodup : forall slave_id ts table,
  NoDup (dict_keys table) ->
  NoDup (dict_keys (fold_left (fun tab t => bump_slave slave_id t tab) ts table)).
Proof.
  intros slave_id ts. induction ts as [|t ts IH]; intros table H; simpl;
    [exact H|].
  apply IH. now apply bump_slave_nodup.
Qed.

Lemma reachable_counters_agree : forall self,
  reachable self -> counters_agree self.
Proof.
  intros self H. induction H as [m|self frame_data current_time Hr IH Hv].
  - unfold counters_agree. simpl. split_all; try reflexivity.
    + intros c _ _. now destruct c.
    + intros slave_id. now repeat split.
    + constructor.
  - apply verify_crc_length in Hv.
    destruct (process_frame_counters self frame_data current_time Hv)
      as (published & Hs & Ht & _).
    destruct IH as (I1 & I2 & I3 & I4 & I5).
    set (after := fst (process_frame self frame_data current_time)) in *.
    set (is_request := is_modbus_request (nth 1 frame_data x00) frame_data) in *.
    assert (Hc : forall c,
              counter_of c (stats after)
              = (counter_of c (stats self)
                 + (if stat_type_eqb c st_total_frames then 1 else 0)
                 + N.of_nat (length (filter (stat_type_eqb c)
                                            (bumps_of is_request published))))%N).
    { intros c. rewrite Hs, fold_bump_counter, bump_counter. reflexivity. }
    unfold counters_agree. split_all.
    + pose proof (Hc st_total_frames) as H1.
      pose proof (Hc st_valid_frames) as H2.
      rewrite bumps_of_count in H1, H2. simpl in H1, H2. lia.
    + pose proof (Hc st_requests) as H1. pose proof (Hc st_responses) as H2.
      pose proof (Hc st_valid_frames) as H3.
      rewrite bumps_of_count in H1, H2, H3. simpl in H1, H2, H3.
      destruct is_request; lia.
    + intros c Hc1 Hc2. rewrite Ht, fold_slave_sum, Hc, (I3 c Hc1 Hc2).
      destruct c; simpl; try lia; contradiction.
    + intros slave_id. cbv zeta. rewrite Ht, fold_slave_view.
      destruct (Byte.eqb slave_id (nth 0 frame_data x00)); [|apply I4].
      destruct (I4 (nth 0 frame_data x00)) as (J1 & J2 & J3).
      pose proof (fold_bump_counter st_total_frames
                    (bumps_of is_request published)
                    (slave_view (slave_stats self) (nth 0 frame_data x00))) as F1.
      pose proof (fold_bump_counter st_errors
                    (bumps_of is_request published)
                    (slave_view (slave_stats self) (nth 0 frame_data x00))) as F2.
      pose proof (fold_bump_counter st_requests
                    (bumps_of is_request published)
                    (slave_view (slave_stats self) (nth 0 frame_data x00))) as F3.
      pose proof (fold_bump_counter st_responses
                    (bumps_of is_request published)
                    (slave_view (slave_stats self) (nth 0 frame_data x00))) as F4.
      pose proof (fold_bump_counter st_valid_frames
                    (bumps_of is_request published)
                    (slave_view (slave_stats self) (nth 0 frame_data x00))) as F5.
      rewrite bumps_of_count in F1, F2, F3, F4, F5.
      cbn [counter_of] in F1, F2, F3, F4, F5.
      destruct is_request; split_all; lia.
    + rewrite Ht. now apply fold_bump_slave_nodup.
Qed.

(** X6.  In every reachable state the counters agree: [total_frames] equals
    [valid_frames], which equals [requests] plus [responses]; the requests,
    responses, valid frames and MQTT publications counted per slave sum to
    the global counters; and every slave's entry has [requests] plus
    [responses] equal to [valid_frames], while its [total_frames] and its
    [errors] are never incremented. *)
Theorem counters_consistent : forall self : Sniffer,
  reachable self ->
  total_frames (stats self) = valid_frames (stats self)
  /\ (requests (stats self) + responses (stats self))%N
     = valid_frames (stats self)
  /\ slave_sum requests (slave_stats self) = requests (stats self)
  /\ slave_sum responses (slave_stats self) = responses (stats self)
  /\ slave_sum valid_frames (slave_stats self) = valid_frames (stats self)
  /\ slave_sum mqtt_publishes (slave_stats self) = mqtt_publishes (stats self)
  /\ (forall slave_id s,
        dict_get Byte.eqb slave_id (slave_stats self) = Some s ->
        total_frames s = 0%N /\ errors s = 0%N
        /\ (requests s + responses s)%N = valid_frames s)
  /\ NoDup (dict_keys (slave_stats self)).
Proof.
  intros self Hr.
  destruct (reachable_counters_agree self Hr) as (I1 & I2 & I3 & I4 & I5).
  split_all; try assumption.
  - apply (I3 st_requests); discriminate.
  - apply (I3 st_responses); discriminate.
  - apply (I3 st_valid_frames); discriminate.
  - apply (I3 st_mqtt_publishes); discriminate.
  - intros slave_id s Hget. specialize (I4 slave_id).
    unfold slave_view in I4. now rewrite Hget in I4.
Qed.

Lemma counters_consistent_witness :
  total_frames (stats Runs.after_49) = valid_frames (stats Runs.after_49)
  /\ slave_sum valid_frames (slave_stats Runs.after_49)
     = valid_frames (stats Runs.after_49).
Proof.
  assert (Hr : reachable Runs.after_49).
  { apply reachable_process_frames; [apply reach_new|].
    apply Forall_forall. intros item Hin.
    apply repeat_spec in Hin. subst item. by_vm. }
  destruct (counters_consistent Runs.after_49 Hr)
    as (H1 & _ & _ & _ & H2 & _).
  split; [exact H1|exact H2].
Defined.

(** X7.  A frame of [MIN_FRAME_SIZE] bytes or more never makes the sniffer
    publish without an MQTT client, and sensor readings and response times
    are published only for a response that is decoded: one with function
    code 0x03 or 0x04 whose device had a pending request of four bytes or
    more, on a sniffer with an MQTT client.  In every other case the count of
    MQTT publications and the set of discovered slaves stay as they are. *)
Theorem process_frame_publishes_only_decoded :
  forall (self : Sniffer) (frame_data : bytes) (current_time : float),
  MIN_FRAME_SIZE <= length frame_data ->
  let device_id := nth 0 frame_data x00 in
  let is_request := is_modbus_request (nth 1 frame_data x00) frame_data in
  let matched :=
    snd (correlate (pending_requests self) device_id current_time) in
  let after := fst (process_frame self frame_data current_time) in
  let events := snd (process_frame self frame_data current_time) in
  (mqtt self = false -> Forall (fun e => is_publication e = false) events)
  /\ (is_request = true \/ decodes self frame_data matched = false ->
      Forall (fun e => is_sensor_publication e = false) events
      /\ mqtt_publishes (stats after) = mqtt_publishes (stats self)
      /\ discovered_slaves after = discovered_slaves self).
Proof.
  intros self frame_data current_time Hlen device_id is_request matched
         after events.
  destruct (process_frame_counters self frame_data current_time Hlen)
    as (published & Hs & _ & Hpub & Hskip).
  fold device_id is_request matched after events in Hs, Hpub, Hskip.
  split.
  - intros Hm. eapply Forall_impl; [|exact Hpub].
    intros e He. cbv beta in He. destruct (is_publication e); [|reflexivity].
    specialize (He eq_refl). congruence.
  - intros Hcase. destruct (Hskip Hcase) as (Hzero & Hev & Hd).
    split; [exact Hev|]. split; [|exact Hd].
    pose proof (fold_bump_counter st_mqtt_publishes
                  (bumps_of is_request published)
                  (bump st_total_frames (stats self))) as F.
    rewrite <- Hs, bumps_of_count, Hzero in F.
    cbn [counter_of bump mqtt_publishes stat_type_eqb] in F. lia.
Qed.

Lemma process_frame_publishes_only_decoded_witness :
  Forall (fun e => is_sensor_publication e = false)
         (snd (process_frame (new_sniffer true) Samples.response 1%float))
  /\ mqtt_publishes
       (stats (fst (process_frame (new_sniffer true) Samples.response 1%float)))
     = 0%N.
Proof.
  destruct (process_frame_publishes_only_decoded
              (new_sniffer true) Samples.response 1%float ltac:(by_vm))
    as (_ & Hskip).
  destruct (Hskip (or_intror eq_refl)) as (Hev & Hcount & _).
  split; [exact Hev|exact Hcount].
Defined.

(** ** Further properties of the register decoder *)



Lemma land_pow2_testbit : forall v k,
  (0 <= k)%Z -> truthy (Z.land v (2 ^ k)) = Z.testbit v k.
Proof.
  intros v k Hk. unfold truthy.
  assert (H : Z.land v (2 ^ k) = if Z.testbit v k then (2 ^ k)%Z else 0%Z).
  { apply Z.bits_inj'. intros n Hn.
    rewrite Z.land_spec, Z.pow2_bits_eqb by exact Hk.
    destruct (Z.eqb_spec k n) as [->|Hne].
    - rewrite andb_true_r. destruct (Z.testbit v n).
      + rewrite Z.pow2_bits_eqb by exact Hn. now rewrite Z.eqb_refl.
      + now rewrite Z.bits_0.
    - rewrite andb_false_r. destruct (Z.testbit v k).
      + rewrite Z.pow2_bits_eqb by exact Hk.
        symmetry. now apply Z.eqb_neq.
      + now rewrite Z.bits_0. }
  rewrite H. destruct (Z.testbit v k); simpl.
  - apply negb_true_iff. apply Z.eqb_neq.
    pose proof (Z.pow_pos_nonneg 2 k). lia.
  - reflexivity.
Qed.

Lemma dict_get_nodup_in : forall {V : Type} (l : dict string V) k v,
  NoDup (dict_keys l) -> In (k, v) l -> dict_get String.eqb k l = Some v.
Proof.
  intros V l k v. induction l as [|[k0 v0] l IH]; simpl; intros Hnd Hin;
    [contradiction|].
  inversion Hnd as [|? ? Hnotin Hrest]; subst.
  destruct Hin as [Heq|Hin].
  - injection Heq as -> ->. now rewrite String.eqb_refl.
  - destruct (String.eqb_spec k k0) as [->|Hne]; [|now apply IH].
    exfalso. apply Hnotin. apply in_map_iff. now exists (k0, v).
Qed.

(** The keys written for one register address are all different. *)
Lemma keys_written_nodup : forall register_addr,
  NoDup (keys_written register_addr).
Proof.
  intros register_addr.
  assert (Hcheck :
    forallb (fun item =>
               if list_eq_dec string_dec
                    (nodup string_dec (keys_written (fst item)))
                    (keys_written (fst item))
               then true else false)
            register_mappings = true) by (vm_compute; reflexivity).
  rewrite forallb_forall in Hcheck.
  destruct (dict_get Z.eqb register_addr register_mappings) as [mapping|] eqn:E.
  - apply (dict_get_in Z.eqb Z.eqb_eq) in E.
    specialize (Hcheck _ E). simpl in Hcheck.
    destruct (list_eq_dec string_dec _ _) as [Heq|]; [|discriminate].
    rewrite <- Heq. apply NoDup_nodup.
  - unfold keys_written, register_assignments. rewrite E. constructor.
Qed.

(** The last value assigned to a key during one pass is the only one. *)
Lemma register_assignments_get : forall register_addr raw key reading,
  In (key, reading) (register_assignments register_addr raw) ->
  dict_get String.eqb key (rev (register_assignments register_addr raw))
  = Some reading.
Proof.
  intros register_addr raw key reading Hin.
  apply dict_get_nodup_in.
  - unfold dict_keys. rewrite map_rev. apply NoDup_rev.
    rewrite keys_written_assignments. apply keys_written_nodup.
  - now apply in_rev in Hin.
Qed.

Lemma parse_read_response_entry :
  forall start_register values i raw key reading,
  nth_error values i = Some raw ->
  In (key, reading)
     (register_assignments (start_register + Z.of_nat i)%Z raw) ->
  dict_get String.eqb key (parse_read_response start_register values)
  = Some reading.
Proof.
  intros start_register values i raw key reading Hnth Hin.
  rewrite (parse_read_response_get start_register values i raw key Hnth).
  - now apply register_assignments_get.
  - rewrite <- (keys_written_assignments _ raw).
    apply in_map_iff. now exists (key, reading).
Qed.

(** X9.  For any raw value [v] decoded at 2108 or at 2119, every entry (bit
    index, name, bitmask) of the register's bit table yields a boolean
    reading that is bit number "bit index" of [v]: each bitmask is the power
    of two of its index.  At 2118 the reading "Defrost Mode Active" is bit 0
    of [v]. *)
Theorem status_bits_are_testbit :
  forall (start_register : Z) (values : list Z) (i : nat) (v : Z),
  nth_error values i = Some v ->
  let parsed := parse_read_response start_register values in
  let bit := fun addr bit_num =>
    mkReading (PyBool (Z.testbit v bit_num)) ""%string
              (Some "binary_sensor"%string)
              (RegBit (addr ++ "b" ++ str_of_Z bit_num)%string) v in
  ((start_register + Z.of_nat i = 2108)%Z ->
   forall bit_num bit_info,
     In (bit_num, bit_info) r2108_bits ->
     bit_bitmask bit_info = (2 ^ bit_num)%Z
     /\ dict_get String.eqb ("R2108 " ++ bit_name bit_info)%string parsed
        = Some (bit "2108"%string bit_num))
  /\ ((start_register + Z.of_nat i = 2119)%Z ->
      forall bit_num bit_info,
        In (bit_num, bit_info) r2119_bits ->
        bit_bitmask bit_info = (2 ^ bit_num)%Z
        /\ dict_get String.eqb ("R2119 " ++ bit_name bit_info)%string parsed
           = Some (bit "2119"%string bit_num))
  /\ ((start_register + Z.of_nat i = 2118)%Z ->
      dict_get String.eqb "Defrost Mode Active"%string parsed
      = Some (bit "2118"%string 0%Z)).
Proof.
  intros start_register values i v Hnth parsed bit. subst parsed bit.
  assert (H2108 : forall raw, exists first,
            register_assignments 2108 raw
            = first :: bit_assignments raw 2108 r2108_bits "R2108"%string)
    by (intros raw; eexists; reflexivity).
  assert (H2119 : forall raw, exists first,
            register_assignments 2119 raw
            = first :: bit_assignments raw 2119 r2119_bits "R2119"%string)
    by (intros raw; eexists; reflexivity).
  split_all.
  - intros Haddr bit_num bit_info Hin.
    assert (Hmask : bit_bitmask bit_info = (2 ^ bit_num)%Z /\ (0 <= bit_num)%Z).
    { unfold r2108_bits in Hin.
      repeat (destruct Hin as [Hin|Hin];
              [injection Hin as <- <-; split; [reflexivity|lia]|]).
      contradiction. }
    destruct Hmask as [Hmask Hpos]. split; [exact Hmask|].
    rewrite (parse_read_response_entry start_register values i v _
               (bit_reading v 2108 bit_num bit_info) Hnth).
    + unfold bit_reading. now rewrite Hmask, land_pow2_testbit.
    + rewrite Haddr. destruct (H2108 v) as [first ->].
      right. unfold bit_assignments.
      apply in_map_iff. now exists (bit_num, bit_info).
  - intros Haddr bit_num bit_info Hin.
    assert (Hmask : bit_bitmask bit_info = (2 ^ bit_num)%Z /\ (0 <= bit_num)%Z).
    { unfold r2119_bits in Hin.
      repeat (destruct Hin as [Hin|Hin];
              [injection Hin as <- <-; split; [reflexivity|lia]|]).
      contradiction. }
    destruct Hmask as [Hmask Hpos]. split; [exact Hmask|].
    rewrite (parse_read_response_entry start_register values i v _
               (bit_reading v 2119 bit_num bit_info) Hnth).
    + unfold bit_reading. now rewrite Hmask, land_pow2_testbit.
    + rewrite Haddr. destruct (H2119 v) as [first ->].
      right. unfold bit_assignments.
      apply in_map_iff. now exists (bit_num, bit_info).
  - intros Haddr.
    rewrite (parse_read_response_entry start_register values i v _
               (mkReading (PyBool (truthy (Z.land v 0x1))) ""%string
                          (Some "binary_sensor"%string) (RegBit "2118b0"%string)
                          v) Hnth).
    + change 1%Z with (2 ^ 0)%Z. now rewrite land_pow2_testbit.
    + rewrite Haddr. right. now left.
Qed.

Lemma status_bits_are_testbit_witness :
  dict_get String.eqb "R2119 Alarm - Low Pressure Switch"%string
           (parse_read_response 2119 [0x1000%Z])
  = Some (mkReading (PyBool true) ""%string (Some "binary_sensor"%string)
                    (RegBit "2119b12"%string) 0x1000).
Proof.
  destruct (status_bits_are_testbit 2119 [0x1000%Z] 0 0x1000%Z eq_refl)
    as (_ & H2119 & _).
  destruct (H2119 eq_refl 12%Z (mkBitInfo "Alarm - Low Pressure Switch" 0x1000))
    as [_ Hget].
  - vm_compute. tauto.
  - exact Hget.
Defined.

Lemma assign_all_keys : forall assignments d key,
  In key (dict_keys (assign_all assignments d))
  <-> In key (map fst assignments) \/ In key (dict_keys d).
Proof.
  induction assignments as [|[k v] assignments IH]; intros d key.
  - simpl. tauto.
  - unfold assign_all in *. cbn [fold_left map fst snd In].
    rewrite IH, (dict_keys_set_in String.eqb String.eqb_eq).
    intuition.
Qed.

Lemma assign_all_nodup : forall assignments d,
  NoDup (dict_keys d) -> NoDup (dict_keys (assign_all assignments d)).
Proof.
  induction assignments as [|[k v] assignments IH]; intros d H; [exact H|].
  unfold assign_all in *. cbn [fold_left]. apply IH.
  now apply (dict_keys_set_nodup String.eqb String.eqb_eq).
Qed.

Lemma in_enumerate_from : forall {A : Type} (l : list A) n i v,
  In (i, v) (combine (seq n (length l)) l)
  <-> n <= i /\ nth_error l (i - n) = Some v.
Proof.
  intros A. induction l as [|x l IH]; intros n i v; simpl.
  - split; [contradiction|]. intros [_ H]. now destruct (i - n).
  - rewrite IH. split.
    + intros [H|[Hle Hnth]].
      * injection H as <- <-. split; [lia|]. now rewrite Nat.sub_diag.
      * split; [lia|]. replace (i - n) with (S (i - S n)) by lia. exact Hnth.
    + intros [Hle Hnth]. destruct (Nat.eq_dec i n) as [->|Hne].
      * rewrite Nat.sub_diag in Hnth. simpl in Hnth. injection Hnth as ->.
        now left.
      * right. split; [lia|].
        replace (i - n) with (S (i - S n)) in Hnth by lia. exact Hnth.
Qed.

Lemma parse_fold_keys : forall start_register items parsed_data key,
  In key (dict_keys (fold_left (parse_step start_register) items parsed_data))
  <-> (exists i raw,
          In (i, raw) items
          /\ In key (keys_written (start_register + Z.of_nat i)%Z))
      \/ In key (dict_keys parsed_data).
Proof.
  intros start_register. induction items as [|[i raw] items IH];
    intros parsed_data key.
  - simpl. split; [now right|]. intros [(i & raw & [] & _)|H]. exact H.
  - cbn [fold_left]. rewrite IH, parse_step_assign, assign_all_keys.
    rewrite keys_written_assignments. split.
    + intros [(j & r & Hin & Hk)|[Hk|Hk]].
      * left. exists j, r. split; [now right|exact Hk].
      * left. exists i, raw. split; [now left|exact Hk].
      * now right.
    + intros [(j & r & [Heq|Hin] & Hk)|Hk].
      * injection Heq as <- <-. right. now left.
      * left. now exists j, r.
      * right. now right.
Qed.

Lemma parse_fold_nodup : forall start_register items parsed_data,
  NoDup (dict_keys parsed_data) ->
  NoDup (dict_keys (fold_left (parse_step start_register) items parsed_data)).
Proof.
  intros start_register. induction items as [|[i raw] items IH];
    intros parsed_data H; [exact H|].
  cbn [fold_left]. apply IH. rewrite parse_step_assign.
  now apply assign_all_nodup.
Qed.

(** X10.  The keys of the result of [parse_read_response] are exactly the
    keys written for the addresses [start + i] of the response that have an
    entry in [register_mappings]; no key occurs twice, and a response whose
    addresses are all unmapped decodes to nothing. *)
Theorem parse_read_response_keys :
  forall (start_register : Z) (values : list Z),
  let parsed := parse_read_response start_register values in
  (forall key,
      In key (dict_keys parsed) <->
      exists i raw mapping,
        nth_error values i = Some raw
        /\ dict_get Z.eqb (start_register + Z.of_nat i)%Z register_mappings
           = Some mapping
        /\ In key (keys_written (start_register + Z.of_nat i)%Z))
  /\ NoDup (dict_keys parsed)
  /\ ((forall i, i < length values ->
         dict_get Z.eqb (start_register + Z.of_nat i)%Z register_mappings
         = None) ->
      parsed = []).
Proof.
  intros start_register values parsed.
  assert (Hkeys : forall key,
      In key (dict_keys parsed) <->
      exists i raw mapping,
        nth_error values i = Some raw
        /\ dict_get Z.eqb (start_register + Z.of_nat i)%Z register_mappings
           = Some mapping
        /\ In key (keys_written (start_register + Z.of_nat i)%Z)).
  { intros key. unfold parsed, parse_read_response, enumerate.
    rewrite parse_fold_keys. split.
    - intros [(i & raw & Hin & Hk)|[]].
      apply in_enumerate_from in Hin as [_ Hnth]. rewrite Nat.sub_0_r in Hnth.
      destruct (dict_get Z.eqb (start_register + Z.of_nat i)%Z register_mappings)
        as [mapping|] eqn:E.
      + now exists i, raw, mapping.
      + unfold keys_written, register_assignments in Hk. rewrite E in Hk.
        contradiction.
    - intros (i & raw & mapping & Hnth & _ & Hk). left. exists i, raw.
      split; [|exact Hk]. apply in_enumerate_from.
      rewrite Nat.sub_0_r. split; [lia|exact Hnth]. }
  split; [exact Hkeys|]. split.
  - unfold parsed, parse_read_response. apply parse_fold_nodup. constructor.
  - intros Hnone. destruct parsed as [|[key reading] rest] eqn:E; [reflexivity|].
    exfalso.
    destruct (proj1 (Hkeys key) ltac:(now left))
      as (i & raw & mapping & Hnth & Hget & _).
    rewrite Hnone in Hget; [discriminate|].
    apply nth_error_Some. congruence.
Qed.

(** X11.  Outside the temperature class no sign conversion and no clamping
    take place: for a raw value at a mapped address whose device class is
    not temperature, the reading stored under the mapping's name has the
    value (raw + offset) * scale and keeps the raw value as it came, also
    above 32767. *)
Theorem plain_reading_unsigned_unclamped :
  forall (start_register : Z) (values : list Z) (i : nat) (raw : Z)
         (mapping : Mapping),
  nth_error values i = Some raw ->
  dict_get Z.eqb (start_register + Z.of_nat i)%Z register_mappings
  = Some mapping ->
  is_temperature mapping = false ->
  dict_get String.eqb (map_name mapping)
           (parse_read_response start_register values)
  = Some (mkReading
            (py_mul (PyInt (raw + map_offset mapping)) (map_scale mapping))
            (map_unit mapping) (map_device_class mapping)
            (RegAddr (start_register + Z.of_nat i)) raw).
Proof.
  intros start_register values i raw mapping Hnth Hget Htemp.
  apply (parse_read_response_entry start_register values i raw _ _ Hnth).
  unfold register_assignments. rewrite Hget. left.
  unfold signed_value, scaled_value. rewrite Htemp. reflexivity.
Qed.

Lemma plain_reading_unsigned_unclamped_witness :
  dict_get String.eqb "Pump Power"%string
           (parse_read_response 2137 [0xFFFF%Z])
  = Some (mkReading (PyFloat 6553.5%float) "W"%string (Some "power"%string)
                    (RegAddr 2137) 0xFFFF).
Proof.
  pose proof (plain_reading_unsigned_unclamped
                2137 [0xFFFF%Z] 0 0xFFFF%Z
                (scaled "Pump Power" "W" 0.1%float "power")
                eq_refl ltac:(by_vm) ltac:(by_vm)) as H.
  refine (eq_trans H _). vm_compute. reflexivity.
Defined.

(** ** The receive loop *)



